(** * matched_columns: an FTS5 auxiliary function, embedded and checked

    Shallow embedding of [matched_columns_imp] from
    [src/AuxiliaryFunctions/matched_columns.c].

    The C function works on two heap buffers obtained from
    [sqlite3_malloc]: the text buffer [matchedColumns] and the array of
    booleans [columnSet].  Both are used as the allocator hands them out,
    so the embedding takes the bytes found in fresh memory as an input
    (the [Allocator]), next to the match context.  Accesses through a null
    pointer or outside a buffer have no defined behaviour in C; the
    embedding stops there and records a [Fault].

    The SQLite interface is taken as documented: [sqlite3_malloc] returns
    a null pointer for a request of zero bytes or less,
    [sqlite3_result_text] turns a null pointer into SQL NULL, the phrase
    iterators deliver column indexes and then a negative index.
    [sqlite3_mprintf] is taken to succeed. *)

From Stdlib Require Import ZArith List String Ascii Bool Lia DecimalString.
From stdpp Require Import base list.

Local Open Scope Z_scope.

(** ** The platform: 32-bit [int], 64-bit [size_t] and pointers *)

Definition int_modulus : Z := 2 ^ 32.
Definition int_max : Z := 2 ^ 31 - 1.
Definition size_t_modulus : Z := 2 ^ 64.

(** The size of a [char] pointer, which is what [sizeof(matchedColumns)]
    denotes. *)
Definition sizeof_pointer : Z := 8.

(** Conversion of a value to [size_t]: reduction modulo 2^64. *)
Definition to_size_t (z : Z) : Z := z mod size_t_modulus.

(** Conversion of a value to [int]: two's complement wrap-around. *)
Definition to_int (z : Z) : Z := (z + 2 ^ 31) mod int_modulus - 2 ^ 31.

Definition NUL : ascii := Ascii.zero.

(** ** The match context (Fts5ExtensionApi + Fts5Context)

    [phraseColumns] lists, for each phrase of the query, the column
    indexes its iterator delivers for the current row, in delivery
    order. *)

Record Fts5Context := {
  tableColumns : Z;
  phraseColumns : list (list Z)
}.

Definition xColumnCount (ftsContext : Fts5Context) : Z :=
  tableColumns ftsContext.

Definition xPhraseCount (ftsContext : Fts5Context) : Z :=
  Z.of_nat (length (phraseColumns ftsContext)).

(** The iterator state is the list of columns still to be delivered. *)
Definition Fts5PhraseIter := list Z.

(** Advances the iterator: the next column, or -1 at the end. *)
Definition xPhraseNextColumn (phraseIterator : Fts5PhraseIter)
  : Fts5PhraseIter * Z :=
  match phraseIterator with
  | [] => ([], -1)
  | c :: rest => (rest, c)
  end.

Definition xPhraseFirstColumn (ftsContext : Fts5Context) (phraseIndex : Z)
  : Fts5PhraseIter * Z :=
  xPhraseNextColumn
    (nth (Z.to_nat phraseIndex) (phraseColumns ftsContext) []).

(** ** The heap *)

(** What [sqlite3_malloc] finds for each of the two requests: [None] when
    the request cannot be served, otherwise the content of the fresh
    block, byte by byte.  The cells of the seen-set block are read as C
    [bool] values, so the block is given by the value of each cell: a
    cell holds the byte 0 (false) or 1 (true).  A block with other stale
    bytes has no counterpart here; what the comparison of line 68 makes
    of such a byte depends on the build. *)
Record Allocator := {
  output_block : option (nat -> ascii);
  seen_block : option (nat -> bool)
}.

(** [sqlite3_malloc(n)]: a null pointer for n <= 0 or when out of memory,
    else a block of n cells holding whatever the heap held. *)
Definition sqlite3_malloc {A : Type} (block : option (nat -> A)) (n : Z)
  : option (list A) :=
  if n <=? 0 then None
  else match block with
       | None => None
       | Some content => Some (map content (seq 0 (Z.to_nat n)))
       end.

Inductive Buffer := OutputText | SeenSet.

Inductive Fault :=
| NullDereference (b : Buffer)
| OutOfBounds (b : Buffer).

(** The working state of one call.  The three counters are ghost state:
    calls to [sqlite3_malloc], executions of the inner loop body (one per
    column delivered by an iterator), and bytes copied by [strncat]. *)
Record Memory := {
  matchedColumns : option (list ascii);
  columnSet : option (list bool);
  allocations : nat;
  iterator_steps : nat;
  appended : nat
}.

Definition untouched : Memory :=
  {| matchedColumns := None; columnSet := None;
     allocations := 0; iterator_steps := 0; appended := 0 |}.

(** ** A state monad with faults *)

Inductive Run (A : Type) :=
| Done (a : A) (m : Memory)
| Crashed (f : Fault) (m : Memory).
Arguments Done {A} a m.
Arguments Crashed {A} f m.

Definition M (A : Type) := Memory -> Run A.

Definition ret {A} (a : A) : M A := fun m => Done a m.

Definition bind {A B} (x : M A) (f : A -> M B) : M B :=
  fun m => match x m with
           | Done a m' => f a m'
           | Crashed e m' => Crashed e m'
           end.

Notation "'let*' x ':=' c1 'in' c2" := (bind c1 (fun x => c2))
  (at level 10, x name, c1 at level 100, c2 at level 200).
Notation "c1 ;; c2" := (bind c1 (fun _ => c2))
  (at level 100, c2 at level 200, right associativity).

(** ** C strings *)

(** [strlen] inside a block: the offset of the first NUL, [None] when the
    block holds none (the scan would leave the block). *)
Fixpoint strlen (s : list ascii) : option nat :=
  match s with
  | [] => None
  | c :: s' => if Ascii.eqb c NUL then Some 0%nat
               else option_map S (strlen s')
  end.

(** Length of a source string given as a block that ends with its NUL. *)
Definition source_length (src : list ascii) : nat :=
  match strlen src with
  | Some n => n
  | None => length src
  end.

(** [strncat(dest, src, n)]: at most [n] bytes of [src] are copied to the
    end of the string in [dest], then a NUL is written. *)
Definition strncat (dest src : list ascii) (n : Z)
  : option (list ascii * nat) :=
  match strlen dest with
  | None => None
  | Some l =>
      let k := Z.to_nat (Z.min n (Z.of_nat (source_length src))) in
      if (l + k + 1 <=? length dest)%nat
      then Some (take l dest ++ take k src ++ NUL :: drop (l + k + 1) dest, k)
      else None
  end.

(** [sqlite3_mprintf] for formats made of plain characters and [%d]
    directives that all print the one integer argument. *)
Fixpoint sqlite3_mprintf (formatString : string) (arg : Z) : string :=
  match formatString with
  | EmptyString => EmptyString
  | String "%" (String "d" rest) =>
      NilZero.string_of_int (Z.to_int arg) ++ sqlite3_mprintf rest arg
  | String c rest => String c (sqlite3_mprintf rest arg)
  end.

(** The block returned by [sqlite3_mprintf]: the text and its NUL. *)
Definition c_string (s : string) : list ascii :=
  list_ascii_of_string s ++ [NUL].

(** ** Accesses to the two buffers *)

Definition strlen_matchedColumns : M nat := fun m =>
  match matchedColumns m with
  | None => Crashed (NullDereference OutputText) m
  | Some buf =>
      match strlen buf with
      | None => Crashed (OutOfBounds OutputText) m
      | Some n => Done n m
      end
  end.

(** Line 76.  An append that would leave the block is where C stops
    defining the behaviour; a compiled program goes on and writes past
    the block.  The run stops there with a fault, and nothing is said
    about what the program returns afterwards: statements about results
    either are about runs without a fault or carry conditions that
    exclude one. *)
Definition strncat_matchedColumns (src : list ascii) (n : Z) : M unit :=
  fun m =>
  match matchedColumns m with
  | None => Crashed (NullDereference OutputText) m
  | Some buf =>
      match strncat buf src n with
      | None => Crashed (OutOfBounds OutputText) m
      | Some (buf', k) =>
          Done tt {| matchedColumns := Some buf';
                     columnSet := columnSet m;
                     allocations := allocations m;
                     iterator_steps := iterator_steps m;
                     appended := (appended m + k)%nat |}
      end
  end.

Definition read_columnSet (columnIndex : Z) : M bool := fun m =>
  match columnSet m with
  | None => Crashed (NullDereference SeenSet) m
  | Some cs =>
      match cs !! Z.to_nat columnIndex with
      | None => Crashed (OutOfBounds SeenSet) m
      | Some b => Done b m
      end
  end.

Definition write_columnSet (columnIndex : Z) (b : bool) : M unit :=
  fun m =>
  match columnSet m with
  | None => Crashed (NullDereference SeenSet) m
  | Some cs =>
      if (Z.to_nat columnIndex <? length cs)%nat
      then Done tt {| matchedColumns := matchedColumns m;
                      columnSet := Some (<[Z.to_nat columnIndex := b]> cs);
                      allocations := allocations m;
                      iterator_steps := iterator_steps m;
                      appended := appended m |}
      else Crashed (OutOfBounds SeenSet) m
  end.

Definition count_step : M unit := fun m =>
  Done tt {| matchedColumns := matchedColumns m;
             columnSet := columnSet m;
             allocations := allocations m;
             iterator_steps := S (iterator_steps m);
             appended := appended m |}.

(** ** The function *)

(** Lines 44-52: the two allocations. *)
Definition allocate_buffers (ftsContext : Fts5Context) (heap : Allocator)
  : Memory :=
  let numberOfColumns := xColumnCount ftsContext in
  {| matchedColumns :=
       sqlite3_malloc (output_block heap)
         (to_int (to_size_t (to_size_t (1 * to_size_t numberOfColumns) * 3)));
     columnSet :=
       sqlite3_malloc (seen_block heap)
         (to_int (to_size_t (1 * to_size_t numberOfColumns)));
     allocations := 2; iterator_steps := 0; appended := 0 |}.

(** Lines 66-78: the body of the inner loop. *)
Definition visit_column (columnIndex : Z) : M unit :=
  count_step ;;
  let* seen := read_columnSet columnIndex in
  if Bool.eqb seen false then
    write_columnSet columnIndex true ;;
    let* len := strlen_matchedColumns in
    let formatString : string :=
      if 0 <? Z.of_nat len then ",%d"%string else "%d"%string in
    let formattedColumnIndex :=
      c_string (sqlite3_mprintf formatString columnIndex) in
    let* len' := strlen_matchedColumns in
    strncat_matchedColumns formattedColumnIndex
      (to_size_t (sizeof_pointer - Z.of_nat len' - 1))
  else ret tt.

(** Lines 61-79: the inner loop, entered with the iterator state and the
    column index the last iterator call delivered.  After the body the
    iterator is advanced; at the end of the list it delivers -1 and the
    loop test fails (see [column_loop_next]). *)
Fixpoint column_loop (phraseIterator : Fts5PhraseIter) (columnIndex : Z)
  : M unit :=
  if 0 <=? columnIndex then
    visit_column columnIndex ;;
    match phraseIterator with
    | [] => ret tt
    | c :: rest => column_loop rest c
    end
  else ret tt.

(** Lines 56-80: the outer loop; [remaining] is
    [numberOfPhrases - phraseIndex]. *)
Fixpoint phrase_loop (ftsContext : Fts5Context) (remaining : nat)
  (phraseIndex : Z) : M unit :=
  match remaining with
  | O => ret tt
  | S remaining' =>
      (let (phraseIterator, columnIndex) :=
         xPhraseFirstColumn ftsContext phraseIndex in
       column_loop phraseIterator columnIndex) ;;
      phrase_loop ftsContext remaining' (phraseIndex + 1)
  end.

(** What reached the result context. *)
Inductive Sink :=
| NoResult
| ResultError (message : string)
| ResultText (text : string)
| ResultNull.

(** [sqlite3_result_text(ctx, z, -1, SQLITE_TRANSIENT)]: SQL NULL for a
    null pointer, else the bytes up to the first NUL.  For a block
    without a NUL the scan leaves the block ([None]); a compiled program
    reads on, and nothing is said about the text it then returns. *)
Definition sqlite3_result_text (z : option (list ascii)) : option Sink :=
  match z with
  | None => Some ResultNull
  | Some buf =>
      match strlen buf with
      | None => None
      | Some n => Some (ResultText (string_of_list_ascii (take n buf)))
      end
  end.

Record Outcome := {
  sink : Sink;
  fault : option Fault;
  memory : Memory
}.

Definition matched_columns_imp (ftsContext : Fts5Context) (heap : Allocator)
  (nVal : Z) : Outcome :=
  if negb (nVal =? 0) then
    {| sink := ResultError "Wrong number of arguments."%string;
       fault := None; memory := untouched |}
  else
    let numberOfPhrases := xPhraseCount ftsContext in
    match phrase_loop ftsContext (Z.to_nat (numberOfPhrases - 0)) 0
            (allocate_buffers ftsContext heap) with
    | Crashed f m => {| sink := NoResult; fault := Some f; memory := m |}
    | Done _ m =>
        match sqlite3_result_text (matchedColumns m) with
        | None =>
            {| sink := NoResult; fault := Some (OutOfBounds OutputText);
               memory := m |}
        | Some r => {| sink := r; fault := None; memory := m |}
        end
    end.

(** The memory a run ends in, whether it finished or stopped at a fault. *)
Definition final {A} (r : Run A) : Memory :=
  match r with
  | Done _ m => m
  | Crashed _ m => m
  end.

(** ** Reading the output text back *)

Definition decimal (columnIndex : Z) : string :=
  NilZero.string_of_int (Z.to_int columnIndex).

Fixpoint split_commas (text : string) : list string :=
  match text with
  | EmptyString => [EmptyString]
  | String c rest =>
      if Ascii.eqb c ","
      then EmptyString :: split_commas rest
      else match split_commas rest with
           | e :: es => String c e :: es
           | [] => [String c EmptyString]
           end
  end.

(** The entries of a comma-separated text; the empty text has none. *)
Definition entries (text : string) : list string :=
  match text with
  | EmptyString => []
  | _ => split_commas text
  end.

(** How often a column index occurs among the entries of a text. *)
Definition occurrences (columnIndex : Z) (text : string) : nat :=
  count_occ string_dec (entries text) (decimal columnIndex).

(** ** The order the specification asks for

    This definition follows the words of the specification, not the
    code: the columns delivered by phrase 0, then phrase 1, and so on,
    each kept at its first occurrence only. *)

Fixpoint keep_first (seen : list Z) (columns : list Z) : list Z :=
  match columns with
  | [] => []
  | c :: rest =>
      if existsb (Z.eqb c) seen then keep_first seen rest
      else c :: keep_first (c :: seen) rest
  end.

Definition spec_first_seen_order (ftsContext : Fts5Context) : list Z :=
  keep_first [] (concat (phraseColumns ftsContext)).

Fixpoint join_commas (items : list string) : string :=
  match items with
  | [] => EmptyString
  | [e] => e
  | e :: es => e ++ "," ++ join_commas es
  end.

Definition spec_output (ftsContext : Fts5Context) : string :=
  join_commas (map decimal (spec_first_seen_order ftsContext)).

(** The columns seen once [c] has been delivered, and what [c] adds to
    the list: itself when it is new, nothing otherwise. *)
Definition mark (seen : list Z) (c : Z) : list Z :=
  if existsb (Z.eqb c) seen then seen else c :: seen.

Definition listed (seen : list Z) (c : Z) : list Z :=
  if existsb (Z.eqb c) seen then [] else [c].

Definition mark_all (seen : list Z) (columns : list Z) : list Z :=
  fold_left mark columns seen.

(** A text cut to the size of a pointer minus one. *)
Definition cut (text : string) : string :=
  string_of_list_ascii
    (take (Z.to_nat (sizeof_pointer - 1)) (list_ascii_of_string text)).

(** ** Heaps and contexts used in the examples *)

(** A heap whose fresh blocks happen to hold zero bytes only. *)
Definition zeroed : Allocator :=
  {| output_block := Some (fun _ => NUL);
     seen_block := Some (fun _ => false) |}.

(** A block that starts with the given cells and continues with [rest]. *)
Definition block_of {A} (cells : list A) (rest : A) : nat -> A :=
  fun i => nth i cells rest.

Definition columns_upto (n : nat) : list Z := map Z.of_nat (seq 0 n).

Definition scenario1 : Fts5Context :=
  {| tableColumns := 3; phraseColumns := [[0; 1]; [1; 2]] |}.

Definition scenario2 : Fts5Context :=
  {| tableColumns := 5; phraseColumns := [[4]; [4]; [4]] |}.

Definition scenario3 : Fts5Context :=
  {| tableColumns := 2; phraseColumns := [] |}.

Definition scenario4 : Fts5Context :=
  {| tableColumns := 0; phraseColumns := [[]] |}.

Definition scenario6 : Fts5Context :=
  {| tableColumns := 150; phraseColumns := [columns_upto 150] |}.

Definition five_columns : Fts5Context :=
  {| tableColumns := 5; phraseColumns := [columns_upto 5] |}.

Definition thirteen_columns : Fts5Context :=
  {| tableColumns := 13; phraseColumns := [[1; 2; 3; 12]] |}.

Definition thirty_two_columns : Fts5Context :=
  {| tableColumns := 32; phraseColumns := [[3; 4; 5; 31]] |}.

Definition one_match : Fts5Context :=
  {| tableColumns := 3; phraseColumns := [[0]] |}.

Definition stray_index : Fts5Context :=
  {| tableColumns := 2; phraseColumns := [[5]] |}.

Definition six_columns : Fts5Context :=
  {| tableColumns := 6; phraseColumns := [[0; 1; 2; 3]] |}.

(** Column 0 of the seen-set block already holds a nonzero byte. *)
Definition stale_seen : Allocator :=
  {| output_block := Some (fun _ => NUL);
     seen_block := Some (block_of [true] false) |}.

(** The output block still holds the text "xy" of an earlier owner. *)
Definition stale_text : Allocator :=
  {| output_block := Some (block_of ["x"; "y"]%char NUL);
     seen_block := Some (fun _ => false) |}.

(** The output block starts with eight letters before its first NUL. *)
Definition long_stale_text : Allocator :=
  {| output_block := Some (block_of (repeat "A"%char 8) NUL);
     seen_block := Some (fun _ => false) |}.

Definition no_seen_set : Allocator :=
  {| output_block := Some (fun _ => NUL); seen_block := None |}.

Definition no_output_buffer : Allocator :=
  {| output_block := None; seen_block := Some (fun _ => false) |}.

(** ** Invariants and conditions used in the statements *)

(** Number of columns the seen-set does not mark yet. *)
Fixpoint unseen (cs : list bool) : nat :=
  match cs with
  | [] => 0
  | b :: rest => ((if b then 0 else 1) + unseen rest)%nat
  end.

(** The outcome carries an error message for the caller. *)
Definition reports_error (o : Outcome) : Prop :=
  exists message, sink o = ResultError message.

(** The seen-set, when there is one, has [n] cells. *)
Definition seen_set_sized (n : nat) (m : Memory) : Prop :=
  forall cs, columnSet m = Some cs -> length cs = n.

(** Both blocks have the sizes requested for [n] columns, and the output
    block holds a string short enough for the next append to fit. *)
Definition buffers_fit (n : nat) (m : Memory) : Prop :=
  seen_set_sized n m /\
  forall buf, matchedColumns m = Some buf ->
    length buf = (3 * n)%nat /\
    exists l, strlen buf = Some l /\
      Z.of_nat l <= sizeof_pointer - 1 /\
      ((8 <= 3 * n)%nat \/
       forall cs, columnSet m = Some cs ->
         (l + 1 + 2 * unseen cs <= 3 * n)%nat).

Definition not_out_of_bounds (b : Buffer) (f : Fault) : Prop :=
  f <> OutOfBounds b.

(** Every index an iterator delivers is below the column count. *)
Definition in_range (ftsContext : Fts5Context) : Prop :=
  Forall (Forall (fun c => c < xColumnCount ftsContext))
    (phraseColumns ftsContext).

(** Every iterator delivers valid column indexes, each at most once. *)
Definition finite_iterators (ftsContext : Fts5Context) : Prop :=
  Forall (fun columns =>
            NoDup columns /\
            Forall (fun c => 0 <= c < xColumnCount ftsContext) columns)
    (phraseColumns ftsContext).

(** The fresh output block, if there is one, starts with a NUL. *)
Definition output_starts_empty (heap : Allocator) : Prop :=
  forall content, output_block heap = Some content -> content 0%nat = NUL.

(** A block without any NUL byte. *)
Definition no_NUL (s : list ascii) : Prop := Forall (fun c => c <> NUL) s.

(** The output block holds a string of [l] bytes, [l] at most
    [sizeof_pointer - 1], of which [l0] were there from the start and the
    others were appended. *)
Definition text_bounded (l0 : nat) (m : Memory) : Prop :=
  exists buf l,
    matchedColumns m = Some buf /\ strlen buf = Some l /\
    Z.of_nat l <= sizeof_pointer - 1 /\ (appended m + l0 = l)%nat.

(** The output block, when there is one, has [size] cells. *)
Definition output_sized (size : nat) (m : Memory) : Prop :=
  forall buf, matchedColumns m = Some buf -> length buf = size.

(** Every index an iterator delivers is a column of the table. *)
Definition valid_columns (ftsContext : Fts5Context) : Prop :=
  Forall (Forall (fun c => 0 <= c < xColumnCount ftsContext))
    (phraseColumns ftsContext).

(** Both fresh blocks are filled with zero bytes where it matters: the
    output block starts with a NUL, the seen-set block is all false. *)
Definition clean_heap (heap : Allocator) : Prop :=
  (exists content, output_block heap = Some content /\ content 0%nat = NUL) /\
  (exists content, seen_block heap = Some content /\
                   forall i, content i = false).

(** On a clean heap, after the columns in [seen] have been marked and
    the columns [out] appended in this order: the seen-set marks exactly
    [seen], and the output block holds the list [out] cut to the size of
    a pointer minus one. *)
Definition clean_state (n : nat) (seen out : list Z) (m : Memory) : Prop :=
  exists buf cs l,
    matchedColumns m = Some buf /\ columnSet m = Some cs /\
    length buf = (3 * n)%nat /\ length cs = n /\
    (forall i, (i < n)%nat ->
       cs !! i = Some (existsb (Z.eqb (Z.of_nat i)) seen)) /\
    strlen buf = Some l /\
    take l buf =
      take (Z.to_nat (sizeof_pointer - 1))
        (list_ascii_of_string (join_commas (map decimal out))) /\
    ((8 <= 3 * n)%nat \/ (l + 1 + 2 * unseen cs <= 3 * n)%nat).

(** ** Further conditions and readings of the inputs *)

(** Columns whose cell in the fresh seen-set block is nonzero already. *)
Definition stale_columns (heap : Allocator) (n : nat) : list Z :=
  match seen_block heap with
  | Some content => map Z.of_nat (List.filter content (seq 0 n))
  | None => []
  end.

(** Both requests to [sqlite3_malloc] are served. *)
Definition blocks_granted (heap : Allocator) : Prop :=
  (exists content, output_block heap = Some content) /\
  (exists content, seen_block heap = Some content).

(** What the inner loop gets to see of a delivery list: the indexes up to
    the first negative one. *)
Fixpoint delivered (columns : list Z) : list Z :=
  match columns with
  | [] => []
  | c :: rest => if 0 <=? c then c :: delivered rest else []
  end.

Definition visible (ftsContext : Fts5Context) : Fts5Context :=
  {| tableColumns := tableColumns ftsContext;
     phraseColumns := map delivered (phraseColumns ftsContext) |}.

(** An entry of the output: not empty, no comma in it. *)
Definition plain_entry (e : string) : Prop :=
  e <> EmptyString /\
  Forall (fun c => c <> ","%char) (list_ascii_of_string e).

(** Neither block was granted. *)
Definition no_blocks (m : Memory) : Prop :=
  matchedColumns m = None /\ columnSet m = None.

(** The seen-set [cs0] of the start has only gained marks, each for a
    column in [touched]. *)
Definition seen_set_grown (cs0 : list bool) (touched : Z -> Prop)
  (m : Memory) : Prop :=
  exists cs,
    columnSet m = Some cs /\ length cs = length cs0 /\
    forall i,
      (cs0 !! i = Some true -> cs !! i = Some true) /\
      (cs !! i <> cs0 !! i -> cs !! i = Some true /\ touched (Z.of_nat i)).

(** A match context with one more phrase at the end. *)
Definition with_phrase (ftsContext : Fts5Context) (columns : list Z)
  : Fts5Context :=
  {| tableColumns := tableColumns ftsContext;
     phraseColumns := phraseColumns ftsContext ++ [columns] |}.

(** A seen-set block given byte by byte, each byte 0 or 1, and the
    [bool] cells it makes. *)
Definition bool_bytes (bytes : nat -> Z) : Prop :=
  forall i, bytes i = 0 \/ bytes i = 1.

Definition cells_of_bytes (bytes : nat -> Z) : nat -> bool :=
  fun i => negb (bytes i =? 0).

(** The columns whose byte in the fresh seen-set block is 1. *)
Definition marked_by (bytes : nat -> Z) (n : nat) : list Z :=
  map Z.of_nat (List.filter (fun i => bytes i =? 1) (seq 0 n)).

(** The seen-set block holds the bytes 1, 0, 0, ...; the output block is
    zero-filled. *)
Definition stale_first_byte : Allocator :=
  {| output_block := Some (fun _ => NUL);
     seen_block := Some (cells_of_bytes (block_of [1] 0)) |}.

(** ** Registration (lines 11-21 and 92-100)

    The two functions around [matched_columns_imp] only talk to SQLite.
    The connection is taken as it answers: what [sqlite3_prepare] returns
    for an SQL text (result code and statement handle), and which
    [fts5_api] pointer stepping that statement stores through a pointer
    bound with a given type tag, if any.  The calls made are recorded in
    order. *)

Definition SQLITE_OK : Z := 0.

(** The embedded type of an auxiliary function such as
    [matched_columns_imp]. *)
Definition fts5_extension_function : Type :=
  Fts5Context -> Allocator -> Z -> Outcome.

(** The [fts5_api] object: [xCreateFunction] with its name, user data,
    function and destructor arguments ([None] is a null pointer). *)
Record fts5_api := {
  xCreateFunction :
    string -> option unit -> fts5_extension_function -> option unit -> Z
}.

Definition sqlite3_stmt := nat.

Record sqlite3 := {
  sqlite3_prepare : string -> Z * option sqlite3_stmt;
  stepped_statement_stores : string -> string -> option fts5_api
}.

Inductive Call :=
| CallPrepare (sql : string)
| CallBindPointer (index : Z) (typeTag : string)
| CallStep
| CallFinalize (pStmt : option sqlite3_stmt)
| CallCreateFunction (name : string) (xFunction : fts5_extension_function).

(** Lines 11-21.  [pRet] starts as a null pointer and is only written by
    the stepped statement. *)
Definition fts5_api_from_db (db : sqlite3) : list Call * option fts5_api :=
  let sql : string := "SELECT fts5(?1)"%string in
  let (rc, pStmt) := sqlite3_prepare db sql in
  if SQLITE_OK =? rc then
    ([CallPrepare sql; CallBindPointer 1 "fts5_api_ptr"; CallStep;
      CallFinalize pStmt],
     stepped_statement_stores db sql "fts5_api_ptr")
  else
    ([CallPrepare sql; CallFinalize pStmt], None).

(** Lines 92-100. *)
Definition fts5_register_matched_columns (db : sqlite3) : list Call * Z :=
  let (calls, api) := fts5_api_from_db db in
  match api with
  | None => (calls, -1)
  | Some a =>
      (calls ++ [CallCreateFunction "matched_columns" matched_columns_imp],
       xCreateFunction a "matched_columns" None matched_columns_imp None)
  end.

(** The FTS5 extension answers: the statement can be prepared and, once
    stepped, stores an [fts5_api] pointer. *)
Definition fts5_available (db : sqlite3) : Prop :=
  fst (sqlite3_prepare db "SELECT fts5(?1)") = SQLITE_OK /\
  stepped_statement_stores db "SELECT fts5(?1)" "fts5_api_ptr" <> None.




Definition is_create_function (c : Call) : bool :=
  match c with CallCreateFunction _ _ => true | _ => false end.

(** A connection without FTS5: the statement cannot be prepared. *)
Definition no_fts5 : sqlite3 :=
  {| sqlite3_prepare := fun _ => (1, None);
     stepped_statement_stores := fun _ _ => None |}.



(** Two columns, nothing matched by the first phrase, an end marker in
    the middle of the second delivery list. *)
Definition marker_inside : Fts5Context :=
  {| tableColumns := 4; phraseColumns := [[]; [2; -1; 3]] |}.

Definition repeated_phrase : Fts5Context :=
  {| tableColumns := 3; phraseColumns := [[0; 1]; [1; 2]; [2; 0; 1]] |}.

Definition nothing_matched : Fts5Context :=
  {| tableColumns := 2; phraseColumns := [[]; []] |}.

(** ** Reasoning about runs *)

(** [triple P c Q R]: from a memory in [P], the computation [c] either
    finishes in [Q] or stops at a fault in [R]. *)
Definition triple {A} (P : Memory -> Prop) (c : M A)
  (Q : A -> Memory -> Prop) (R : Fault -> Memory -> Prop) : Prop :=
  forall m, P m ->
    match c m with
    | Done a m' => Q a m'
    | Crashed f m' => R f m'
    end.

Lemma triple_ret {A} (P : Memory -> Prop) (a : A) R :
  triple P (ret a) (fun _ => P) R.
Proof. intros m Hm. exact Hm. Qed.

Lemma triple_bind {A B} (P : Memory -> Prop) (c : M A) (f : A -> M B)
  (Q : A -> Memory -> Prop) (Q' : B -> Memory -> Prop) R :
  triple P c Q R ->
  (forall a, triple (Q a) (f a) Q' R) ->
  triple P (bind c f) Q' R.
Proof.
  intros Hc Hf m Hm. unfold bind.
  specialize (Hc m Hm). destruct (c m) as [a m'|e m'].
  - exact (Hf a m' Hc).
  - exact Hc.
Qed.

Lemma triple_weaken {A} (P P' : Memory -> Prop) (c : M A)
  (Q Q' : A -> Memory -> Prop) (R R' : Fault -> Memory -> Prop) :
  triple P c Q R ->
  (forall m, P' m -> P m) ->
  (forall a m, Q a m -> Q' a m) ->
  (forall f m, R f m -> R' f m) ->
  triple P' c Q' R'.
Proof.
  intros Hc HP HQ HR m Hm. specialize (Hc m (HP m Hm)).
  destruct (c m); auto.
Qed.

(** The inner loop is the [for] loop of the source: test, body, then
    [xPhraseNextColumn]. *)
Lemma column_loop_next (phraseIterator : Fts5PhraseIter) (columnIndex : Z) :
  column_loop phraseIterator columnIndex =
  if 0 <=? columnIndex then
    visit_column columnIndex ;;
    (let (phraseIterator', columnIndex') :=
       xPhraseNextColumn phraseIterator in
     column_loop phraseIterator' columnIndex')
  else ret tt.
Proof. destruct phraseIterator; reflexivity. Qed.

(** An invariant kept by every visit is kept by the two loops. *)
Section Loops.
Variable Inv : Memory -> Prop.
Variable Bad : Fault -> Memory -> Prop.
Variable admissible : Z -> Prop.
Hypothesis visit_keeps : forall c,
  0 <= c -> admissible c ->
  triple Inv (visit_column c) (fun _ => Inv) Bad.

Lemma column_loop_keeps (phraseIterator : Fts5PhraseIter) :
  forall columnIndex,
    Forall admissible (columnIndex :: phraseIterator) ->
    triple Inv (column_loop phraseIterator columnIndex)
      (fun _ => Inv) Bad.
Proof.
  induction phraseIterator as [|c rest IH]; intros columnIndex Hall;
    simpl; destruct (0 <=? columnIndex) eqn:Hsign;
    try apply triple_ret.
  - eapply triple_bind.
    + apply visit_keeps; [lia | now inversion Hall].
    + intros ?. apply triple_ret.
  - eapply triple_bind.
    + apply visit_keeps; [lia | now inversion Hall].
    + intros ?. apply IH. now inversion Hall.
Qed.

Lemma first_column_keeps (ftsContext : Fts5Context) (phraseIndex : Z) :
  Forall (Forall admissible) (phraseColumns ftsContext) ->
  triple Inv
    (let (phraseIterator, columnIndex) :=
       xPhraseFirstColumn ftsContext phraseIndex in
     column_loop phraseIterator columnIndex)
    (fun _ => Inv) Bad.
Proof.
  intros Hall. unfold xPhraseFirstColumn, xPhraseNextColumn.
  destruct (nth (Z.to_nat phraseIndex) (phraseColumns ftsContext) [])
    as [|c rest] eqn:Hnth.
  - simpl. apply triple_ret.
  - apply column_loop_keeps.
    destruct (Nat.lt_ge_cases (Z.to_nat phraseIndex)
                (length (phraseColumns ftsContext))) as [Hlt|Hge].
    + rewrite <- Hnth. rewrite List.Forall_forall in Hall.
      apply Hall. now apply nth_In.
    + rewrite nth_overflow in Hnth by exact Hge. discriminate.
Qed.

Lemma phrase_loop_keeps (ftsContext : Fts5Context) :
  Forall (Forall admissible) (phraseColumns ftsContext) ->
  forall remaining phraseIndex,
    triple Inv (phrase_loop ftsContext remaining phraseIndex)
      (fun _ => Inv) Bad.
Proof.
  intros Hall. induction remaining as [|k IH]; intros phraseIndex; simpl.
  - apply triple_ret.
  - eapply triple_bind.
    + now apply first_column_keeps.
    + intros ?. apply IH.
Qed.
End Loops.

Lemma all_admissible (columns : list (list Z)) :
  Forall (Forall (fun _ : Z => True)) columns.
Proof.
  apply List.Forall_forall. intros ? _. apply List.Forall_forall. auto.
Qed.

(** ** Facts about C strings *)

Lemma strlen_Some (s : list ascii) :
  forall l, strlen s = Some l ->
    (l < length s)%nat /\ no_NUL (take l s).
Proof.
  induction s as [|c s IH]; intros l H; simpl in H; [discriminate|].
  destruct (Ascii.eqb c NUL) eqn:Hc.
  - inversion H; subst. simpl. split; [lia | constructor].
  - destruct (strlen s) as [l'|]; [|discriminate].
    inversion H; subst. destruct (IH l' eq_refl) as [Hlt Hno].
    simpl. split; [lia|]. constructor; [|exact Hno].
    now apply Ascii.eqb_neq.
Qed.

Lemma strlen_None (s : list ascii) : strlen s = None -> no_NUL s.
Proof.
  induction s as [|c s IH]; intros H; [constructor|]. simpl in H.
  destruct (Ascii.eqb c NUL) eqn:Hc; [discriminate|].
  destruct (strlen s); [discriminate|].
  constructor; [now apply Ascii.eqb_neq | now apply IH].
Qed.

Lemma strlen_app_NUL (p q : list ascii) :
  no_NUL p -> strlen (p ++ NUL :: q) = Some (length p).
Proof.
  induction 1 as [|c p Hc _ IH]; simpl.
  - reflexivity.
  - apply Ascii.eqb_neq in Hc. rewrite Hc, IH. reflexivity.
Qed.

Lemma no_NUL_take (s : list ascii) (k : nat) : no_NUL s -> no_NUL (take k s).
Proof. intros H. now apply Forall_take. Qed.

Lemma source_length_le (src : list ascii) :
  (source_length src <= length src)%nat.
Proof.
  unfold source_length. destruct (strlen src) as [n|] eqn:H; [|lia].
  apply strlen_Some in H. lia.
Qed.

Lemma source_prefix_no_NUL (src : list ascii) (k : nat) :
  (k <= source_length src)%nat -> no_NUL (take k src).
Proof.
  unfold source_length. intros Hk.
  destruct (strlen src) as [n|] eqn:H.
  - apply strlen_Some in H as [_ Hno].
    replace k with (min k n) by lia. rewrite <- take_take.
    now apply no_NUL_take.
  - apply no_NUL_take. now apply strlen_None.
Qed.

Lemma string_of_list_ascii_length (s : list ascii) :
  String.length (string_of_list_ascii s) = length s.
Proof. induction s as [|c s IH]; simpl; [reflexivity | now rewrite IH]. Qed.

(** What a successful [strncat] leaves behind: the string grew by the
    [k] copied bytes, the block kept its size. *)
Lemma strncat_Some (dest src : list ascii) (n : Z) (l : nat) buf' k :
  strlen dest = Some l ->
  strncat dest src n = Some (buf', k) ->
  strlen buf' = Some (l + k)%nat /\
  length buf' = length dest /\
  k = Z.to_nat (Z.min n (Z.of_nat (source_length src))).
Proof.
  intros Hl H. unfold strncat in H. rewrite Hl in H.
  set (k0 := Z.to_nat (Z.min n (Z.of_nat (source_length src)))) in *.
  destruct (l + k0 + 1 <=? length dest)%nat eqn:Hfit; [|discriminate].
  inversion H; subst buf' k. clear H.
  apply Nat.leb_le in Hfit.
  pose proof (source_length_le src) as Hsrc.
  assert (Hk : (k0 <= source_length src)%nat) by (unfold k0; lia).
  destruct (strlen_Some _ _ Hl) as [_ Hno].
  split; [|split; [|reflexivity]].
  - rewrite app_assoc. rewrite strlen_app_NUL.
    + rewrite length_app, !length_take. f_equal. lia.
    + apply Forall_app. split; [exact Hno|].
      now apply source_prefix_no_NUL.
  - rewrite !length_app. simpl. rewrite !length_take, length_drop. lia.
Qed.

(** When the block is large enough, [strncat] succeeds. *)
Lemma strncat_fits (dest src : list ascii) (n : Z) (l : nat) :
  strlen dest = Some l ->
  (l + Z.to_nat (Z.min n (Z.of_nat (source_length src))) + 1
   <= length dest)%nat ->
  exists buf', strncat dest src n =
    Some (buf', Z.to_nat (Z.min n (Z.of_nat (source_length src)))).
Proof.
  intros Hl Hfit. unfold strncat. rewrite Hl.
  apply Nat.leb_le in Hfit. rewrite Hfit. eauto.
Qed.

(** ** Integer conversions on the values that occur *)

Lemma to_size_t_small (z : Z) : 0 <= z < size_t_modulus -> to_size_t z = z.
Proof. intros H. unfold to_size_t. now apply Z.mod_small. Qed.

Lemma to_int_small (z : Z) : 0 <= z <= int_max -> to_int z = z.
Proof.
  unfold to_int, int_max, int_modulus. intros H.
  rewrite Z.mod_small by lia. lia.
Qed.

Lemma seen_set_request (n : Z) :
  0 <= n <= int_max -> to_int (to_size_t (1 * to_size_t n)) = n.
Proof.
  intros H. assert (int_max < size_t_modulus) by reflexivity.
  rewrite (to_size_t_small n) by lia.
  rewrite to_size_t_small by lia. rewrite to_int_small by lia. lia.
Qed.

Lemma output_request (n : Z) :
  0 <= n -> 3 * n <= int_max ->
  to_int (to_size_t (to_size_t (1 * to_size_t n) * 3)) = 3 * n.
Proof.
  intros H0 H. assert (int_max < size_t_modulus) by reflexivity.
  rewrite (to_size_t_small n) by lia.
  rewrite (to_size_t_small (1 * n)) by lia.
  rewrite to_size_t_small by lia. rewrite to_int_small by lia. lia.
Qed.

Lemma sqlite3_malloc_length {A} (block : option (nat -> A)) (n : Z) cells :
  sqlite3_malloc block n = Some cells -> length cells = Z.to_nat n.
Proof.
  unfold sqlite3_malloc. destruct (n <=? 0); [discriminate|].
  destruct block; [|discriminate]. intros H. inversion H.
  now rewrite length_map, length_seq.
Qed.

(** ** Counting the iterator steps *)

Arguments sqlite3_mprintf : simpl never.
Arguments c_string : simpl never.
Arguments strncat : simpl never.
Arguments strlen : simpl never.
Arguments Nat.mul : simpl never.

Ltac run_visit :=
  unfold visit_column, bind, count_step, read_columnSet, write_columnSet,
    strlen_matchedColumns, strncat_matchedColumns, ret; simpl.

Ltac split_matches :=
  repeat match goal with
         | |- context [match ?x with _ => _ end] =>
             lazymatch x with
             | context [match _ with _ => _ end] => fail
             | _ => destruct x eqn:?; simpl
             end
         end.

Lemma visit_column_steps (columnIndex : Z) (m : Memory) :
  iterator_steps (final (visit_column columnIndex m)) = S (iterator_steps m).
Proof. run_visit. split_matches; reflexivity. Qed.

Lemma column_loop_steps (phraseIterator : Fts5PhraseIter) :
  forall columnIndex m,
    (iterator_steps (final (column_loop phraseIterator columnIndex m))
     <= iterator_steps m + length (columnIndex :: phraseIterator))%nat.
Proof.
  induction phraseIterator as [|c rest IH]; intros columnIndex m; simpl;
    (destruct (0 <=? columnIndex); [|unfold ret; simpl; lia]);
    unfold bind;
    pose proof (visit_column_steps columnIndex m) as Hv;
    destruct (visit_column columnIndex m) as [u m'|f m']; simpl in *;
    try lia.
  specialize (IH c m'). lia.
Qed.

Lemma first_column_steps (ftsContext : Fts5Context) (bound : nat) :
  Forall (fun columns => (length columns <= bound)%nat)
    (phraseColumns ftsContext) ->
  forall phraseIndex m,
    (iterator_steps
       (final ((let (phraseIterator, columnIndex) :=
                  xPhraseFirstColumn ftsContext phraseIndex in
                column_loop phraseIterator columnIndex) m))
     <= iterator_steps m + bound)%nat.
Proof.
  intros Hall phraseIndex m. unfold xPhraseFirstColumn, xPhraseNextColumn.
  destruct (nth (Z.to_nat phraseIndex) (phraseColumns ftsContext) [])
    as [|c rest] eqn:Hnth.
  - simpl. unfold ret. simpl. lia.
  - pose proof (column_loop_steps rest c m) as Hloop.
    assert (Hlen : (length (c :: rest) <= bound)%nat).
    { destruct (Nat.lt_ge_cases (Z.to_nat phraseIndex)
                  (length (phraseColumns ftsContext))) as [Hlt|Hge].
      - rewrite <- Hnth. rewrite List.Forall_forall in Hall.
        apply Hall. now apply nth_In.
      - rewrite nth_overflow in Hnth by exact Hge. discriminate. }
    lia.
Qed.

Lemma phrase_loop_steps (ftsContext : Fts5Context) (bound : nat) :
  Forall (fun columns => (length columns <= bound)%nat)
    (phraseColumns ftsContext) ->
  forall remaining phraseIndex m,
    (iterator_steps (final (phrase_loop ftsContext remaining phraseIndex m))
     <= iterator_steps m + remaining * bound)%nat.
Proof.
  intros Hall. induction remaining as [|k IH]; intros phraseIndex m; simpl.
  - unfold ret. simpl. lia.
  - unfold bind.
    pose proof (first_column_steps ftsContext bound Hall phraseIndex m) as H1.
    destruct ((let (phraseIterator, columnIndex) :=
                 xPhraseFirstColumn ftsContext phraseIndex in
               column_loop phraseIterator columnIndex) m) as [u m'|f m'];
      simpl in *.
    + specialize (IH (phraseIndex + 1) m'). lia.
    + lia.
Qed.

(** Distinct indexes below [n] are at most [n] many. *)
Lemma distinct_columns_bounded (n : Z) (columns : list Z) :
  NoDup columns ->
  Forall (fun c => 0 <= c < n) columns ->
  (length columns <= Z.to_nat n)%nat.
Proof.
  intros Hnd Hrange. apply NoDup_ListNoDup in Hnd.
  rewrite List.Forall_forall in Hrange.
  rewrite <- (length_map Z.to_nat columns).
  rewrite <- (List.length_seq (Z.to_nat n) 0).
  apply List.NoDup_incl_length.
  - apply List.NoDup_map_NoDup_ForallPairs; [|exact Hnd].
    intros a b Ha Hb Heq. pose proof (Hrange a Ha).
    pose proof (Hrange b Hb). lia.
  - intros i Hi. apply List.in_map_iff in Hi as [c [<- Hc]].
    apply List.in_seq. specialize (Hrange c Hc). lia.
Qed.

Lemma memory_of_run (ftsContext : Fts5Context) (heap : Allocator) :
  memory (matched_columns_imp ftsContext heap 0) =
  final (phrase_loop ftsContext (length (phraseColumns ftsContext)) 0
           (allocate_buffers ftsContext heap)).
Proof.
  unfold matched_columns_imp, xPhraseCount. simpl.
  rewrite Z.sub_0_r, Nat2Z.id.
  destruct (phrase_loop _ _ _ _) as [u m|f m]; simpl; [|reflexivity].
  destruct (sqlite3_result_text (matchedColumns m)); reflexivity.
Qed.

(** ** The text never outgrows a pointer *)

Lemma visit_keeps_text_bounded (l0 : nat) (columnIndex : Z) :
  triple (text_bounded l0) (visit_column columnIndex)
    (fun _ => text_bounded l0) (fun _ => text_bounded l0).
Proof.
  intros m (buf & l & Hmc & Hl & Hle & Happ).
  run_visit. rewrite ?Hmc. simpl.
  split_matches; simplify_eq;
    try (eexists _, _; simpl; repeat split; eauto; fail).
  all: match goal with
       | Hs : strlen ?d = Some ?n, H : strncat ?d _ _ = Some (?b, ?k) |- _ =>
           destruct (strncat_Some _ _ _ _ _ _ Hs H) as (Hlen & _ & Hk);
           exists b, (n + k)%nat
       end.
  all: unfold sizeof_pointer in *.
  all: rewrite to_size_t_small in Hk by (unfold size_t_modulus; lia).
  all: simpl; repeat split; auto; lia.
Qed.

Lemma run_keeps_text_bounded (ftsContext : Fts5Context) (heap : Allocator)
  (l0 : nat) :
  text_bounded l0 (allocate_buffers ftsContext heap) ->
  text_bounded l0 (memory (matched_columns_imp ftsContext heap 0)).
Proof.
  intros Hstart. rewrite memory_of_run.
  pose proof (phrase_loop_keeps (text_bounded l0)
                (fun _ => text_bounded l0) (fun _ => True)
                (fun c _ _ => visit_keeps_text_bounded l0 c) ftsContext)
    as Hloop.
  specialize (Hloop (all_admissible _) (length (phraseColumns ftsContext)) 0 _ Hstart).
  destruct (phrase_loop _ _ _ _); exact Hloop.
Qed.

(** ** In-range indexes stay inside both buffers *)

Lemma unseen_mark (cs : list bool) :
  forall i, cs !! i = Some false ->
    S (unseen (<[i := true]> cs)) = unseen cs.
Proof.
  induction cs as [|b cs IH]; intros [|i] H; simpl in *; try discriminate.
  - inversion H; subst. reflexivity.
  - rewrite <- (IH i H). destruct b; simpl; lia.
Qed.

Lemma unseen_le_length (cs : list bool) : (unseen cs <= length cs)%nat.
Proof. induction cs as [|[] cs IH]; simpl; lia. Qed.

(** The bytes one visit appends fit the block: either the block has room
    for a pointer-sized text, or so few columns exist that every index
    prints as one digit and each unseen column still has two bytes. *)
Lemma append_fits (n : nat) (cs : list bool) (columnIndex : Z) (l : nat)
  (formatString : string) :
  length cs = n ->
  cs !! Z.to_nat columnIndex = Some false ->
  0 <= columnIndex ->
  formatString = ",%d"%string \/ formatString = "%d"%string ->
  Z.of_nat l <= sizeof_pointer - 1 ->
  (8 <= 3 * n \/ l + 1 + 2 * unseen cs <= 3 * n)%nat ->
  let k := Z.to_nat
             (Z.min (sizeof_pointer - Z.of_nat l - 1)
                (Z.of_nat (source_length
                   (c_string (sqlite3_mprintf formatString columnIndex)))))
  in
  (l + k + 1 <= 3 * n)%nat /\
  (8 <= 3 * n \/
   l + k + 1 + 2 * unseen (<[Z.to_nat columnIndex := true]> cs)
   <= 3 * n)%nat.
Proof.
  intros Hlen Hlook Hsign Hfmt Hl Hroom k. unfold sizeof_pointer in *.
  pose proof (unseen_mark cs _ Hlook) as Hmark.
  destruct (le_lt_dec 8 (3 * n)) as [Hbig|Hfew]; [lia|].
  destruct Hroom as [Hbig|Hsmall]; [lia|].
  assert (Hc : columnIndex = 0 \/ columnIndex = 1).
  { apply lookup_lt_Some in Hlook.
    pose proof (unseen_le_length cs). lia. }
  assert (Hk : (k <= 2)%nat).
  { unfold k. destruct Hc as [-> | ->], Hfmt as [-> | ->];
      vm_compute source_length; lia. }
  lia.
Qed.

Ltac index_facts :=
  repeat match goal with
         | H : _ !! _ = Some _ |- _ => apply lookup_lt_Some in H
         | H : _ !! _ = None |- _ => apply lookup_ge_None in H
         | H : (_ <? _)%nat = false |- _ => apply Nat.ltb_ge in H
         | H : forall cs, Some _ = Some cs -> _ |- _ =>
             specialize (H _ eq_refl)
         end.

Lemma visit_keeps_seen_set_sized (n : nat) (columnIndex : Z) :
  0 <= columnIndex -> columnIndex < Z.of_nat n ->
  triple (seen_set_sized n) (visit_column columnIndex)
    (fun _ => seen_set_sized n)
    (fun f _ => not_out_of_bounds SeenSet f).
Proof.
  intros Hsign Hrange m Hsized. unfold seen_set_sized in *.
  run_visit. split_matches; simplify_eq; unfold not_out_of_bounds;
    try discriminate;
    try (intros cs' [= <-]; rewrite ?length_insert; auto; fail).
  all: exfalso; index_facts; lia.
Qed.

Lemma visit_keeps_buffers_fit (n : nat) (columnIndex : Z) :
  0 <= columnIndex -> columnIndex < Z.of_nat n ->
  triple (buffers_fit n) (visit_column columnIndex)
    (fun _ => buffers_fit n)
    (fun f _ => forall b, not_out_of_bounds b f).
Proof.
  intros Hsign Hrange m [Hsized Hfit].
  unfold buffers_fit, seen_set_sized in *.
  run_visit. split_matches; simplify_eq; unfold not_out_of_bounds;
    try (intros ?; discriminate);
    try (split; assumption);
    try (exfalso; index_facts; lia).
  all: destruct (Hfit _ eq_refl) as (Hlen & l' & Hstr & Hl' & Hroom);
    try congruence; simplify_eq.
  all: match goal with
       | H : eqb _ false = true |- _ => apply eqb_prop in H; subst
       end.
  all: match goal with
       | Hs : strlen _ = Some ?len,
         Hb : Z.of_nat ?len <= _,
         H : strncat _ (c_string (sqlite3_mprintf ?fmt _)) _ = _ |- _ =>
           assert (Hroom' : (8 <= 3 * n \/
                             len + 1 + 2 * unseen l <= 3 * n)%nat)
             by (destruct Hroom as [?|Hr];
                 [now left|right; exact (Hr _ eq_refl)]);
           pose proof (append_fits n l columnIndex len fmt
                         (Hsized _ eq_refl) Heqo0 Hsign
                         ltac:(first [left; reflexivity | right; reflexivity])
                         Hb Hroom') as [Hfits Hroom'']
       end.
  all: unfold sizeof_pointer in *.
  all: rewrite to_size_t_small in * by (unfold size_t_modulus; lia).
  all: try match goal with
           | Hs : strlen ?d = Some ?len, H : strncat ?d ?src ?N = None |- _ =>
               destruct (strncat_fits d src N len Hs) as [? ?];
               [lia | congruence]
           end.
  all: match goal with
       | Hs : strlen ?d = Some ?len, H : strncat ?d _ _ = Some _ |- _ =>
           destruct (strncat_Some _ _ _ _ _ _ Hs H) as (Hnew & Hsame & Hk)
       end.
  all: split;
    [ intros cs [= <-]; rewrite length_insert; exact (Hsized _ eq_refl)
    | intros buf [= <-]; split; [lia|];
      eexists; split; [exact Hnew|]; split; [lia|];
      destruct Hroom'' as [?|?]; [now left|right];
      intros cs [= <-]; lia ].
Qed.

Lemma allocate_seen_set_sized (ftsContext : Fts5Context) (heap : Allocator) :
  0 <= xColumnCount ftsContext <= int_max ->
  seen_set_sized (Z.to_nat (xColumnCount ftsContext))
    (allocate_buffers ftsContext heap).
Proof.
  intros Hn cs Hcs. simpl in Hcs. rewrite seen_set_request in Hcs by exact Hn.
  now apply sqlite3_malloc_length in Hcs.
Qed.

Lemma allocate_buffers_fit (ftsContext : Fts5Context) (heap : Allocator) :
  0 <= xColumnCount ftsContext ->
  3 * xColumnCount ftsContext <= int_max ->
  output_starts_empty heap ->
  buffers_fit (Z.to_nat (xColumnCount ftsContext))
    (allocate_buffers ftsContext heap).
Proof.
  intros Hn Hmax Hempty. split.
  - apply allocate_seen_set_sized. lia.
  - intros buf Hbuf. simpl in Hbuf.
    rewrite output_request in Hbuf by assumption.
    pose proof (sqlite3_malloc_length _ _ _ Hbuf) as Hlen.
    split; [lia|]. exists 0%nat.
    unfold sqlite3_malloc in Hbuf.
    destruct (3 * xColumnCount ftsContext <=? 0) eqn:Hpos; [discriminate|].
    apply Z.leb_gt in Hpos.
    destruct (output_block heap) as [content|] eqn:Hblock; [|discriminate].
    inversion Hbuf; subst buf. clear Hbuf.
    destruct (Z.to_nat (3 * xColumnCount ftsContext)) as [|k] eqn:Hk; [lia|].
    split; [|split].
    + simpl. unfold strlen. rewrite (Hempty content Hblock).
      reflexivity.
    + unfold sizeof_pointer. lia.
    + right. intros cs Hcs.
      apply (allocate_seen_set_sized ftsContext heap) in Hcs; [|lia].
      pose proof (unseen_le_length cs). lia.
Qed.

Lemma in_range_of_finite (ftsContext : Fts5Context) :
  finite_iterators ftsContext -> in_range ftsContext.
Proof.
  unfold finite_iterators, in_range. intros H.
  eapply List.Forall_impl; [|exact H]. intros columns [_ Hcols].
  eapply List.Forall_impl; [|exact Hcols]. intros c Hc. simpl in Hc. lia.
Qed.

(** A fault of a whole call is a fault of the loops or of the final
    [strlen] inside [sqlite3_result_text]. *)
Lemma run_faults (Inv : Memory -> Prop) (Bad : Fault -> Prop)
  (ftsContext : Fts5Context) (heap : Allocator) :
  Inv (allocate_buffers ftsContext heap) ->
  triple Inv
    (phrase_loop ftsContext (length (phraseColumns ftsContext)) 0)
    (fun _ => Inv) (fun f _ => Bad f) ->
  (forall m, Inv m -> sqlite3_result_text (matchedColumns m) = None ->
             Bad (OutOfBounds OutputText)) ->
  forall f, fault (matched_columns_imp ftsContext heap 0) = Some f -> Bad f.
Proof.
  intros Hstart Hloop Hlast f. unfold matched_columns_imp, xPhraseCount.
  simpl. rewrite Z.sub_0_r, Nat2Z.id.
  specialize (Hloop _ Hstart).
  destruct (phrase_loop _ _ _ _) as [u m|f' m]; simpl.
  - destruct (sqlite3_result_text (matchedColumns m)) eqn:Htext; simpl.
    + discriminate.
    + intros [= <-]. now apply (Hlast m).
  - intros [= <-]. exact Hloop.
Qed.

Lemma wrong_arity (ftsContext : Fts5Context) (heap : Allocator) (nVal : Z) :
  nVal <> 0 ->
  matched_columns_imp ftsContext heap nVal =
  {| sink := ResultError "Wrong number of arguments.";
     fault := None; memory := untouched |}.
Proof.
  intros H. unfold matched_columns_imp.
  apply Z.eqb_neq in H. rewrite H. reflexivity.
Qed.

(** The arity error is the only error the function ever reports. *)
Lemma only_arity_errors_are_reported
  (ftsContext : Fts5Context) (heap : Allocator) :
  ~ reports_error (matched_columns_imp ftsContext heap 0).
Proof.
  intros [message H]. revert H. unfold matched_columns_imp. simpl.
  destruct (phrase_loop _ _ _ _) as [u m|f m]; simpl; [|discriminate].
  unfold sqlite3_result_text.
  destruct (matchedColumns m) as [buf|]; simpl; [|discriminate].
  destruct (strlen buf); simpl; discriminate.
Qed.

(** ** The output block never grows *)

Lemma visit_keeps_output_sized (size : nat) (columnIndex : Z) :
  triple (output_sized size) (visit_column columnIndex)
    (fun _ => output_sized size) (fun _ => output_sized size).
Proof.
  intros m Hsized. unfold output_sized in *.
  run_visit. split_matches; simplify_eq; auto.
  all: match goal with
       | Hs : strlen ?d = Some ?len, H : strncat ?d _ _ = Some _ |- _ =>
           destruct (strncat_Some _ _ _ _ _ _ Hs H) as (_ & Hsame & _)
       end.
  all: intros buf [= <-]; rewrite Hsame; auto.
Qed.

Lemma allocate_output_sized (ftsContext : Fts5Context) (heap : Allocator) :
  0 <= xColumnCount ftsContext ->
  3 * xColumnCount ftsContext <= int_max ->
  output_sized (Z.to_nat (3 * xColumnCount ftsContext))
    (allocate_buffers ftsContext heap).
Proof.
  intros Hn Hmax buf Hbuf. simpl in Hbuf.
  rewrite output_request in Hbuf by assumption.
  now apply sqlite3_malloc_length in Hbuf.
Qed.

(** With in-range indexes and an output block that starts empty, no
    access of a call leaves either block. *)
Lemma clean_start_stays_in_blocks
  (ftsContext : Fts5Context) (heap : Allocator) :
  0 <= xColumnCount ftsContext ->
  3 * xColumnCount ftsContext <= int_max ->
  in_range ftsContext ->
  output_starts_empty heap ->
  forall b, fault (matched_columns_imp ftsContext heap 0)
              <> Some (OutOfBounds b).
Proof.
  intros Hn Hmax Hrange Hempty b Hf.
  refine (run_faults
            (buffers_fit (Z.to_nat (xColumnCount ftsContext)))
            (fun f => forall b, not_out_of_bounds b f)
            ftsContext heap _ _ _ _ Hf b eq_refl).
  - now apply allocate_buffers_fit.
  - apply (phrase_loop_keeps _ _ (fun c => c < xColumnCount ftsContext)).
    + intros c Hc Hlt. apply visit_keeps_buffers_fit; lia.
    + exact Hrange.
  - intros m [_ Hfit] Htext. exfalso. unfold sqlite3_result_text in Htext.
    destruct (matchedColumns m) as [buf|]; [|discriminate].
    destruct (Hfit buf eq_refl) as (_ & l & Hl & _). rewrite Hl in Htext.
    discriminate.
Qed.

(** * Clean heaps: the first-seen list, cut to the size of a pointer *)

(** ** Decimal rendering *)

Lemma digits_no_NUL (d : Decimal.uint) :
  no_NUL (list_ascii_of_string (NilEmpty.string_of_uint d)).
Proof.
  induction d; simpl; constructor; try discriminate; assumption.
Qed.

Lemma decimal_no_NUL (c : Z) : no_NUL (list_ascii_of_string (decimal c)).
Proof.
  unfold decimal, NilZero.string_of_int, NilZero.string_of_uint.
  destruct (Z.to_int c) as [d|d]; destruct d; simpl;
    repeat (constructor; try discriminate);
    apply digits_no_NUL.
Qed.

Lemma decimal_nonempty (c : Z) : decimal c <> EmptyString.
Proof.
  unfold decimal, NilZero.string_of_int, NilZero.string_of_uint.
  destruct (Z.to_int c) as [d|d]; destruct d; simpl; discriminate.
Qed.

Lemma list_ascii_of_string_app (s t : string) :
  list_ascii_of_string (s ++ t) =
  list_ascii_of_string s ++ list_ascii_of_string t.
Proof. induction s as [|c s IH]; simpl; [reflexivity | now rewrite IH]. Qed.

Lemma append_empty (s : string) : (s ++ EmptyString)%string = s.
Proof. induction s as [|c s IH]; simpl; [reflexivity | now rewrite IH]. Qed.

Lemma append_assoc (s t u : string) :
  ((s ++ t) ++ u)%string = (s ++ t ++ u)%string.
Proof. induction s as [|c s IH]; simpl; [reflexivity | now rewrite IH]. Qed.

Lemma mprintf_plain (c : Z) : sqlite3_mprintf "%d" c = decimal c.
Proof. unfold sqlite3_mprintf, decimal. apply append_empty. Qed.

Lemma mprintf_comma (c : Z) :
  sqlite3_mprintf ",%d" c = String "," (decimal c).
Proof. unfold sqlite3_mprintf, decimal. now rewrite append_empty. Qed.

(** ** Joining with commas *)

Lemma join_commas_snoc (items : list string) (e : string) :
  join_commas (items ++ [e]) =
  match items with
  | [] => e
  | _ => (join_commas items ++ String "," e)%string
  end.
Proof.
  induction items as [|a items IH]; [reflexivity|].
  destruct items as [|b items]; [reflexivity|].
  change (join_commas ((a :: b :: items) ++ [e]))
    with (a ++ "," ++ join_commas ((b :: items) ++ [e]))%string.
  rewrite IH.
  change (join_commas (a :: b :: items))
    with (a ++ "," ++ join_commas (b :: items))%string.
  rewrite !append_assoc. reflexivity.
Qed.

Lemma join_commas_nonempty (items : list string) :
  Forall (fun e => e <> EmptyString) items ->
  items <> [] -> join_commas items <> EmptyString.
Proof.
  intros Hall Hne. destruct items as [|a items]; [congruence|].
  inversion Hall as [|? ? Ha _]; subst.
  destruct items as [|b items]; [exact Ha|].
  change (join_commas (a :: b :: items))
    with (a ++ "," ++ join_commas (b :: items))%string.
  destruct a; [congruence | discriminate].
Qed.

(** ** First-seen order, one column at a time *)

Lemma keep_first_cons (seen : list Z) (c : Z) (rest : list Z) :
  keep_first seen (c :: rest) = listed seen c ++ keep_first (mark seen c) rest.
Proof.
  unfold listed, mark. simpl. now destruct (existsb (Z.eqb c) seen).
Qed.

Lemma keep_first_app (a b : list Z) :
  forall seen,
    keep_first seen (a ++ b) =
    keep_first seen a ++ keep_first (mark_all seen a) b.
Proof.
  induction a as [|c a IH]; intros seen; [reflexivity|].
  rewrite <- app_comm_cons, !keep_first_cons, IH, <- app_assoc.
  reflexivity.
Qed.

Lemma mark_all_app (a b : list Z) (seen : list Z) :
  mark_all seen (a ++ b) = mark_all (mark_all seen a) b.
Proof. apply fold_left_app. Qed.

(** ** The bytes [strncat] writes *)

Lemma strncat_content (dest src : list ascii) (n : Z) (l : nat) buf' k :
  strlen dest = Some l ->
  strncat dest src n = Some (buf', k) ->
  take (l + k) buf' = take l dest ++ take k src.
Proof.
  intros Hl H. pose proof (strncat_Some _ _ _ _ _ _ Hl H) as (_ & _ & Hk).
  unfold strncat in H. rewrite Hl in H. rewrite <- Hk in H.
  destruct (l + k + 1 <=? length dest)%nat eqn:Hfit; [|discriminate].
  inversion H; subst buf'. clear H. apply Nat.leb_le in Hfit.
  pose proof (source_length_le src).
  rewrite app_assoc. apply take_app_length'.
  rewrite length_app, !length_take. lia.
Qed.

(** The source length of a printed index is the length of its text. *)
Lemma source_length_c_string (s : string) :
  no_NUL (list_ascii_of_string s) ->
  source_length (c_string s) = length (list_ascii_of_string s).
Proof.
  intros H. unfold source_length, c_string. now rewrite strlen_app_NUL.
Qed.

(** Copying at most [room] bytes of a terminated source copies the
    first [room] bytes of its text. *)
Lemma take_source (B : list ascii) (room : nat) :
  take (min room (length B)) (B ++ [NUL]) = take room B.
Proof.
  rewrite take_app_le by lia.
  destruct (le_lt_dec room (length B)) as [Hle|Hlt].
  - now rewrite Nat.min_l by exact Hle.
  - rewrite Nat.min_r by lia. rewrite !take_ge by lia. reflexivity.
Qed.

(** One append turns the cut list of [out] into the cut list of [out]
    followed by the new column. *)
Lemma appended_text (out : list Z) (c : Z) (l : nat) (old : list ascii) :
  old = take (Z.to_nat (sizeof_pointer - 1))
          (list_ascii_of_string (join_commas (map decimal out))) ->
  l = length old ->
  let formatString : string :=
    if 0 <? Z.of_nat l then ",%d"%string else "%d"%string in
  let src := c_string (sqlite3_mprintf formatString c) in
  let k := Z.to_nat (Z.min (sizeof_pointer - Z.of_nat l - 1)
                       (Z.of_nat (source_length src))) in
  old ++ take k src =
  take (Z.to_nat (sizeof_pointer - 1))
    (list_ascii_of_string (join_commas (map decimal (out ++ [c])))).
Proof.
  intros Hold Hl formatString src k.
  unfold sizeof_pointer in *. change (Z.to_nat (8 - 1)) with 7%nat in *.
  rewrite map_app. simpl (map decimal [c]). rewrite join_commas_snoc.
  assert (Hle : (l <= 7)%nat) by (subst l old; rewrite length_take; lia).
  destruct out as [|o out].
  - simpl in Hold. subst old. simpl in Hl. subst l.
    subst formatString src k. simpl (0 <? Z.of_nat 0).
    cbv iota. rewrite mprintf_plain.
    rewrite source_length_c_string by apply decimal_no_NUL.
    simpl (map decimal []). cbv iota. simpl app at 1.
    replace (Z.to_nat _) with
      (min 7 (length (list_ascii_of_string (decimal c)))) by lia.
    apply take_source.
  - set (A := join_commas (map decimal (o :: out))) in *.
    assert (HA : A <> EmptyString).
    { apply join_commas_nonempty; [|discriminate].
      apply List.Forall_forall. intros e He.
      apply List.in_map_iff in He as [x [<- _]]. apply decimal_nonempty. }
    assert (Hlen : l = min 7 (length (list_ascii_of_string A)))
      by (subst l old; now rewrite length_take).
    assert (Hpos : (0 < l)%nat).
    { destruct A; [congruence|]. simpl in Hlen. lia. }
    subst formatString src k.
    replace (0 <? Z.of_nat l) with true by (symmetry; apply Z.ltb_lt; lia).
    rewrite mprintf_comma.
    rewrite source_length_c_string
      by (simpl; constructor; [discriminate | apply decimal_no_NUL]).
    match goal with
    | |- _ = ?rhs =>
        change rhs with
          (take 7 (list_ascii_of_string (A ++ String "," (decimal c))))
    end.
    rewrite list_ascii_of_string_app, take_app, <- Hold.
    f_equal.
    replace (Z.to_nat _) with
      (min (7 - l) (length (list_ascii_of_string (String "," (decimal c)))))
      by lia.
    unfold c_string. rewrite take_source. f_equal. lia.
Qed.

(** ** One visit on a clean heap *)

(** Marking a column keeps the seen-set in step with the list of seen
    columns. *)
Lemma marks_after_write (n : nat) (cs : list bool) (seen : list Z) (c : Z) :
  length cs = n -> 0 <= c < Z.of_nat n ->
  (forall i, (i < n)%nat ->
     cs !! i = Some (existsb (Z.eqb (Z.of_nat i)) seen)) ->
  forall i, (i < n)%nat ->
    <[Z.to_nat c := true]> cs !! i =
    Some (existsb (Z.eqb (Z.of_nat i)) (c :: seen)).
Proof.
  intros Hlen Hc Hmarks i Hi. simpl.
  destruct (Nat.eq_dec (Z.to_nat c) i) as [<-|Hne].
  - rewrite list_lookup_insert_eq by lia.
    rewrite Z2Nat.id by lia. now rewrite Z.eqb_refl.
  - rewrite list_lookup_insert_ne by exact Hne.
    rewrite (Hmarks i Hi).
    replace (Z.of_nat i =? c) with false; [reflexivity|].
    symmetry. apply Z.eqb_neq. lia.
Qed.

(** A visit marks the column and, when it is new, appends it. *)
Lemma visit_clean (n : nat) (seen out : list Z) (c : Z) :
  0 <= c < Z.of_nat n ->
  triple (clean_state n seen out) (visit_column c)
    (fun _ => clean_state n (mark seen c) (out ++ listed seen c))
    (fun _ _ => False).
Proof.
  intros Hc m
    (buf & cs & l & Hmc & Hcs & Hlb & Hlc & Hmarks & Hl & Htext & Hroom).
  pose proof (Hmarks (Z.to_nat c) ltac:(lia)) as Hlook.
  rewrite Z2Nat.id in Hlook by lia.
  assert (Hl7 : Z.of_nat l <= sizeof_pointer - 1).
  { apply strlen_Some in Hl as [Hlt _].
    assert (length (take l buf) = l) by (rewrite length_take; lia).
    rewrite Htext, length_take in H. unfold sizeof_pointer in *. lia. }
  run_visit. rewrite Hcs, Hmc. simpl. rewrite Hlook. simpl.
  unfold mark, listed.
  destruct (existsb (Z.eqb c) seen) eqn:Hseen; simpl.
  - rewrite app_nil_r. exists buf, cs, l. repeat split; auto.
  - replace (Z.to_nat c <? length cs)%nat with true
      by (symmetry; apply Nat.ltb_lt; lia).
    simpl. rewrite Hl. simpl. rewrite Hl. simpl.
    set (formatString :=
           if 0 <? Z.of_nat l then ",%d"%string else "%d"%string).
    assert (Hfmt : formatString = ",%d"%string \/ formatString = "%d"%string)
      by (unfold formatString; destruct (0 <? Z.of_nat l); auto).
    pose proof (append_fits n cs c l formatString Hlc Hlook (proj1 Hc)
                  Hfmt Hl7 Hroom) as [Hfits Hroom'].
    assert (Hsmall : to_size_t (sizeof_pointer - Z.of_nat l - 1) =
                     sizeof_pointer - Z.of_nat l - 1)
      by (apply to_size_t_small; unfold sizeof_pointer, size_t_modulus in *;
          lia).
    rewrite Hsmall.
    destruct (strncat_fits buf (c_string (sqlite3_mprintf formatString c))
                (sizeof_pointer - Z.of_nat l - 1) l Hl) as [buf' Hcat];
      [lia|].
    rewrite Hcat. simpl.
    pose proof (strncat_Some _ _ _ _ _ _ Hl Hcat) as (Hnew & Hsame & _).
    pose proof (strncat_content _ _ _ _ _ _ Hl Hcat) as Hcontent.
    eexists buf', (<[Z.to_nat c := true]> cs), _.
    repeat split; try reflexivity.
    + lia.
    + rewrite length_insert. exact Hlc.
    + now apply marks_after_write.
    + exact Hnew.
    + rewrite Hcontent, Htext.
      apply appended_text; [reflexivity|].
      rewrite <- Htext, length_take.
      apply strlen_Some in Hl as [Hlt _]. lia.
    + exact Hroom'.
Qed.

(** ** The loops on a clean heap *)

Lemma column_loop_clean (n : nat) (phraseIterator : Fts5PhraseIter) :
  forall columnIndex seen out,
    Forall (fun c => 0 <= c < Z.of_nat n) (columnIndex :: phraseIterator) ->
    triple (clean_state n seen out) (column_loop phraseIterator columnIndex)
      (fun _ =>
         clean_state n (mark_all seen (columnIndex :: phraseIterator))
           (out ++ keep_first seen (columnIndex :: phraseIterator)))
      (fun _ _ => False).
Proof.
  induction phraseIterator as [|c rest IH]; intros columnIndex seen out Hall;
    inversion Hall as [|? ? Hc Hrest]; subst;
    rewrite keep_first_cons, app_assoc;
    change (mark_all seen (columnIndex :: ?l))
      with (mark_all (mark seen columnIndex) l);
    simpl column_loop;
    (replace (0 <=? columnIndex) with true by (symmetry; apply Z.leb_le; lia));
    (eapply triple_bind; [now apply visit_clean|]); intros ?.
  - simpl. rewrite app_nil_r. apply triple_ret.
  - now apply IH.
Qed.

Lemma first_column_clean (n : nat) (ftsContext : Fts5Context)
  (phraseIndex : Z) (seen out : list Z) :
  Forall (Forall (fun c => 0 <= c < Z.of_nat n))
    (phraseColumns ftsContext) ->
  let columns := nth (Z.to_nat phraseIndex) (phraseColumns ftsContext) [] in
  triple (clean_state n seen out)
    (let (phraseIterator, columnIndex) :=
       xPhraseFirstColumn ftsContext phraseIndex in
     column_loop phraseIterator columnIndex)
    (fun _ => clean_state n (mark_all seen columns)
                (out ++ keep_first seen columns))
    (fun _ _ => False).
Proof.
  intros Hall columns. unfold xPhraseFirstColumn, xPhraseNextColumn.
  fold columns.
  assert (Hcols : Forall (fun c => 0 <= c < Z.of_nat n) columns).
  { unfold columns.
    destruct (Nat.lt_ge_cases (Z.to_nat phraseIndex)
                (length (phraseColumns ftsContext))) as [Hlt|Hge].
    - rewrite List.Forall_forall in Hall. apply Hall. now apply nth_In.
    - rewrite nth_overflow by exact Hge. constructor. }
  destruct columns as [|c rest].
  - simpl. rewrite app_nil_r. apply triple_ret.
  - now apply column_loop_clean.
Qed.

(** The phrases the outer loop still has to visit. *)
Lemma concat_next_phrase (phrases : list (list Z)) (k i : nat) :
  concat (take (S k) (drop i phrases)) =
  nth i phrases [] ++ concat (take k (drop (S i) phrases)).
Proof.
  destruct (phrases !! i) as [p|] eqn:Hi.
  - rewrite (drop_S _ _ _ Hi), (nth_lookup_Some _ _ _ _ Hi). reflexivity.
  - apply lookup_ge_None in Hi.
    rewrite nth_overflow by exact Hi.
    rewrite !drop_ge by lia. rewrite !take_nil. reflexivity.
Qed.

Lemma phrase_loop_clean (n : nat) (ftsContext : Fts5Context) :
  Forall (Forall (fun c => 0 <= c < Z.of_nat n))
    (phraseColumns ftsContext) ->
  forall remaining phraseIndex seen out,
    0 <= phraseIndex ->
    let columns :=
      concat (take remaining
                (drop (Z.to_nat phraseIndex) (phraseColumns ftsContext))) in
    triple (clean_state n seen out)
      (phrase_loop ftsContext remaining phraseIndex)
      (fun _ => clean_state n (mark_all seen columns)
                  (out ++ keep_first seen columns))
      (fun _ _ => False).
Proof.
  intros Hall. induction remaining as [|k IH];
    intros phraseIndex seen out Hpos columns; subst columns.
  - simpl. rewrite app_nil_r. apply triple_ret.
  - rewrite concat_next_phrase, keep_first_app, mark_all_app, app_assoc.
    simpl phrase_loop. eapply triple_bind.
    + now apply first_column_clean.
    + intros ?. replace (S (Z.to_nat phraseIndex))
        with (Z.to_nat (phraseIndex + 1)) by lia.
      apply IH. lia.
Qed.

(** ** The whole call on a clean heap *)

Lemma fresh_block_lookup {A} (content : nat -> A) (n i : nat) :
  (i < n)%nat -> map content (seq 0 n) !! i = Some (content i).
Proof.
  intros Hi. change (map content (seq 0 n)) with (content <$> seq 0 n).
  rewrite list_lookup_fmap, lookup_seq_lt by exact Hi. reflexivity.
Qed.

Lemma allocate_clean_state (ftsContext : Fts5Context) (heap : Allocator) :
  0 < xColumnCount ftsContext ->
  3 * xColumnCount ftsContext <= int_max ->
  clean_heap heap ->
  clean_state (Z.to_nat (xColumnCount ftsContext)) [] []
    (allocate_buffers ftsContext heap).
Proof.
  intros Hn Hmax [(out_content & Hout & Hnul) (seen_content & Hseen & Hfalse)].
  assert (Hempty : output_starts_empty heap).
  { intros content Hc. rewrite Hout in Hc. now inversion Hc; subst. }
  destruct (allocate_buffers_fit ftsContext heap ltac:(lia) Hmax Hempty)
    as [Hsized Hfit].
  assert (Hbuf : exists buf,
            matchedColumns (allocate_buffers ftsContext heap) = Some buf).
  { simpl. rewrite output_request by lia. unfold sqlite3_malloc.
    replace (3 * xColumnCount ftsContext <=? 0) with false
      by (symmetry; apply Z.leb_gt; lia).
    rewrite Hout. eauto. }
  destruct Hbuf as [buf Hbuf].
  assert (Hcs : columnSet (allocate_buffers ftsContext heap) =
                Some (map seen_content
                        (seq 0 (Z.to_nat (xColumnCount ftsContext))))).
  { simpl. rewrite seen_set_request by (unfold int_max in *; lia).
    unfold sqlite3_malloc.
    replace (xColumnCount ftsContext <=? 0) with false
      by (symmetry; apply Z.leb_gt; lia).
    now rewrite Hseen. }
  destruct (Hfit buf Hbuf) as (Hlen & l & Hl & _ & Hroom).
  assert (Hzero : l = 0%nat).
  { revert Hbuf Hl. simpl. rewrite output_request by lia.
    unfold sqlite3_malloc.
    replace (3 * xColumnCount ftsContext <=? 0) with false
      by (symmetry; apply Z.leb_gt; lia).
    rewrite Hout. intros [= <-].
    destruct (Z.to_nat (3 * xColumnCount ftsContext)) as [|k] eqn:Hk; [lia|].
    simpl. unfold strlen. rewrite Hnul. simpl. congruence. }
  subst l.
  exists buf, (map seen_content (seq 0 (Z.to_nat (xColumnCount ftsContext)))),
    0%nat.
  repeat split; auto.
  - intros i Hi. rewrite fresh_block_lookup by exact Hi.
    now rewrite Hfalse.
  - destruct Hroom as [Hbig|Hsmall]; [now left|right]. now apply Hsmall.
Qed.

(** On a clean heap, with valid column indexes, the call returns the
    first-seen list of the specification cut to the size of a pointer
    minus one, 7 bytes. *)
Theorem clean_heap_output (ftsContext : Fts5Context) (heap : Allocator) :
  0 < xColumnCount ftsContext ->
  3 * xColumnCount ftsContext <= int_max ->
  valid_columns ftsContext ->
  clean_heap heap ->
  sink (matched_columns_imp ftsContext heap 0) =
    ResultText (cut (spec_output ftsContext)) /\
  fault (matched_columns_imp ftsContext heap 0) = None.
Proof.
  intros Hn Hmax Hvalid Hclean.
  assert (Hall : Forall (Forall (fun c =>
                   0 <= c < Z.of_nat (Z.to_nat (xColumnCount ftsContext))))
                   (phraseColumns ftsContext)).
  { eapply List.Forall_impl; [|exact Hvalid]. intros columns Hcols.
    eapply List.Forall_impl; [|exact Hcols]. intros c Hc. simpl in Hc. lia. }
  pose proof (phrase_loop_clean _ ftsContext Hall
                (length (phraseColumns ftsContext)) 0 [] [] (Z.le_refl 0)
                _ (allocate_clean_state ftsContext heap Hn Hmax Hclean))
    as Hloop.
  simpl in Hloop. rewrite drop_0, take_ge in Hloop by lia.
  unfold matched_columns_imp, xPhraseCount. simpl.
  rewrite Z.sub_0_r, Nat2Z.id.
  destruct (phrase_loop _ _ _ _) as [u m|f m]; [|contradiction].
  destruct Hloop as (buf & cs & l & Hmc & _ & _ & _ & _ & Hl & Htext & _).
  unfold sqlite3_result_text. rewrite Hmc, Hl. simpl.
  split; [|reflexivity]. unfold cut, spec_output, spec_first_seen_order.
  now rewrite Htext.
Qed.

(** A list that fits the pointer-sized bound is returned whole. *)
Corollary short_lists_are_complete
  (ftsContext : Fts5Context) (heap : Allocator) :
  0 < xColumnCount ftsContext ->
  3 * xColumnCount ftsContext <= int_max ->
  valid_columns ftsContext ->
  clean_heap heap ->
  Z.of_nat (String.length (spec_output ftsContext)) <= sizeof_pointer - 1 ->
  sink (matched_columns_imp ftsContext heap 0) =
    ResultText (spec_output ftsContext).
Proof.
  intros Hn Hmax Hvalid Hclean Hshort.
  destruct (clean_heap_output ftsContext heap Hn Hmax Hvalid Hclean)
    as [-> _].
  f_equal. unfold cut. rewrite take_ge.
  - apply string_of_list_ascii_of_string.
  - rewrite <- (string_of_list_ascii_length
                  (list_ascii_of_string (spec_output ftsContext))).
    rewrite string_of_list_ascii_of_string. lia.
Qed.

(** * The scenarios of the specification on a zeroed heap *)

Lemma zeroed_is_clean : clean_heap zeroed.
Proof. split; eexists; (split; [reflexivity|]); reflexivity. Qed.

Example scenario1_is_complete :
  sink (matched_columns_imp scenario1 zeroed 0) =
    ResultText (spec_output scenario1).
Proof.
  apply short_lists_are_complete.
  - reflexivity.
  - discriminate.
  - unfold valid_columns, scenario1. simpl.
    repeat (apply List.Forall_cons || apply List.Forall_nil); lia.
  - exact zeroed_is_clean.
  - discriminate.
Qed.

Example scenario1_text :
  sink (matched_columns_imp scenario1 zeroed 0) = ResultText "0,1,2".
Proof. reflexivity. Qed.

Example scenario2_text :
  sink (matched_columns_imp scenario2 zeroed 0) = ResultText "4".
Proof. reflexivity. Qed.

Example scenario3_text :
  sink (matched_columns_imp scenario3 zeroed 0) = ResultText EmptyString.
Proof. reflexivity. Qed.

Example scenario4_null :
  sink (matched_columns_imp scenario4 zeroed 0) = ResultNull.
Proof. reflexivity. Qed.

Example scenario5_error :
  sink (matched_columns_imp scenario1 zeroed 1) =
    ResultError "Wrong number of arguments.".
Proof. reflexivity. Qed.

Example scenario6_text :
  sink (matched_columns_imp scenario6 zeroed 0) = ResultText "0,1,2,3".
Proof. vm_compute. reflexivity. Qed.

(** * The claims *)

(** C1, the claim as stated fails.  With 150 columns all matched by one
    phrase, on a heap that hands out zero bytes, the call returns the
    text "0,1,2,3": the last index, 149, is not in it.  The full list
    takes 489 bytes, the block requested for it has 450. *)
Lemma scenario6_list_is_not_full :
  sink (matched_columns_imp scenario6 zeroed 0)
    <> ResultText (spec_output scenario6) /\
  sink (matched_columns_imp scenario6 zeroed 0) = ResultText "0,1,2,3" /\
  occurrences 149 "0,1,2,3" = 0%nat /\
  String.length (spec_output scenario6) = 489%nat /\
  option_map (@length ascii)
    (matchedColumns (allocate_buffers scenario6 zeroed)) = Some 450%nat.
Proof.
  split; [|vm_compute; repeat split].
  vm_compute. discriminate.
Qed.

(** C1, amended.  The output is written into one block of
    3 x numberOfColumns bytes, requested once and never grown: the block
    has this size when it is allocated and when the call ends.  When
    every delivered index is below the column count and the fresh block
    starts with a NUL, no access leaves the block and a text result is
    shorter than 3 x numberOfColumns bytes.  The block is a ceiling on
    the column count; a list that needs more bytes is not returned in
    full.  (A fresh block that holds a stale string is outside this
    statement: there the append of line 76 can be made past the end of
    the block.) *)
Theorem output_text_shorter_than_block
  (ftsContext : Fts5Context) (heap : Allocator) (nVal : Z) :
  0 <= xColumnCount ftsContext ->
  3 * xColumnCount ftsContext <= int_max ->
  (forall buf,
     matchedColumns (allocate_buffers ftsContext heap) = Some buf ->
     Z.of_nat (length buf) = 3 * xColumnCount ftsContext) /\
  (forall buf,
     matchedColumns (memory (matched_columns_imp ftsContext heap nVal))
       = Some buf ->
     Z.of_nat (length buf) = 3 * xColumnCount ftsContext) /\
  (in_range ftsContext ->
   output_starts_empty heap ->
   (forall b, fault (matched_columns_imp ftsContext heap nVal)
                <> Some (OutOfBounds b)) /\
   (forall text,
      sink (matched_columns_imp ftsContext heap nVal) = ResultText text ->
      Z.of_nat (String.length text) < 3 * xColumnCount ftsContext)).
Proof.
  intros Hn Hmax.
  pose proof (allocate_output_sized ftsContext heap Hn Hmax) as Hstart.
  split; [intros buf Hbuf; rewrite (Hstart buf Hbuf); lia|].
  destruct (Z.eq_dec nVal 0) as [->|Harity].
  2: { rewrite (wrong_arity _ _ _ Harity). simpl.
       split; [intros ?; discriminate|]. intros _ _.
       split; intros ?; discriminate. }
  assert (Hfinal : output_sized (Z.to_nat (3 * xColumnCount ftsContext))
                     (memory (matched_columns_imp ftsContext heap 0))).
  { rewrite memory_of_run.
    pose proof (phrase_loop_keeps _ _ (fun _ => True)
                  (fun c _ _ => visit_keeps_output_sized
                                  (Z.to_nat (3 * xColumnCount ftsContext)) c)
                  ftsContext (all_admissible _)
                  (length (phraseColumns ftsContext)) 0 _ Hstart) as Hloop.
    destruct (phrase_loop _ _ _ _); exact Hloop. }
  split.
  - intros buf Hbuf. rewrite (Hfinal buf Hbuf). lia.
  - intros Hrange Hempty. split.
    + now apply clean_start_stays_in_blocks.
    + intros text. revert Hfinal. unfold matched_columns_imp. simpl.
      destruct (phrase_loop _ _ _ _) as [u m|f m]; simpl; [|discriminate].
      unfold sqlite3_result_text.
      destruct (matchedColumns m) as [buf|] eqn:Hbuf; simpl;
        [|discriminate].
      destruct (strlen buf) as [l|] eqn:Hl; simpl; [|discriminate].
      intros Hfinal [= <-]. specialize (Hfinal buf Hbuf).
      rewrite string_of_list_ascii_length, length_take.
      apply strlen_Some in Hl as [Hlt _]. lia.
Qed.

Lemma output_text_shorter_than_block_witness :
  0 <= xColumnCount five_columns /\
  3 * xColumnCount five_columns <= int_max /\
  in_range five_columns /\
  output_starts_empty zeroed /\
  (forall b, fault (matched_columns_imp five_columns zeroed 0)
               <> Some (OutOfBounds b)) /\
  (forall text,
     sink (matched_columns_imp five_columns zeroed 0) = ResultText text ->
     Z.of_nat (String.length text) < 3 * xColumnCount five_columns).
Proof.
  assert (H0 : 0 <= xColumnCount five_columns) by (vm_compute; discriminate).
  assert (H1 : 3 * xColumnCount five_columns <= int_max)
    by (vm_compute; discriminate).
  assert (H2 : in_range five_columns).
  { unfold in_range, five_columns. simpl.
    repeat (apply List.Forall_cons || apply List.Forall_nil); lia. }
  assert (H3 : output_starts_empty zeroed)
    by (intros content [= <-]; reflexivity).
  split; [exact H0|]. split; [exact H1|]. split; [exact H2|].
  split; [exact H3|].
  exact (proj2 (proj2 (output_text_shorter_than_block
                         five_columns zeroed 0 H0 H1)) H2 H3).
Defined.

(** C2 (code defect).  The claim asks for a seen-set with every entry
    false at the start.  The code takes the block from [sqlite3_malloc]
    and reads it without writing it first: with a block whose cell 0
    holds a stale nonzero byte, the seen-set starts as true, false,
    false and scenario 1 returns "1,2", column 0 missing. *)
Theorem seen_set_starts_with_stale_bytes :
  columnSet (allocate_buffers scenario1 stale_seen) =
    Some [true; false; false] /\
  sink (matched_columns_imp scenario1 stale_seen 0) = ResultText "1,2" /\
  sink (matched_columns_imp scenario1 zeroed 0) = ResultText "0,1,2".
Proof. vm_compute. repeat split. Qed.

(** C3 (code defect).  The claim asks that every delivered index occurs
    exactly once in the output and none twice.  With 13 columns and one
    phrase that matches columns 1, 2, 3 and 12, on a zeroed heap, the
    output is "1,2,3,1": the append of ",12" is cut after two bytes, so
    index 12 does not occur and index 1 occurs twice. *)
Theorem truncation_drops_and_repeats_indexes :
  sink (matched_columns_imp thirteen_columns zeroed 0) =
    ResultText "1,2,3,1" /\
  occurrences 12 "1,2,3,1" = 0%nat /\
  occurrences 1 "1,2,3,1" = 2%nat.
Proof. vm_compute. repeat split. Qed.

(** C4 (code defect).  The claim asks for the empty string when there
    are no phrases or no columns.  With 2 columns and no phrase, the
    output block is handed to [sqlite3_result_text] as allocated: when it
    still holds the bytes "xy", the result is the text "xy".  With 0
    columns the request is for 0 bytes, [sqlite3_malloc] returns a null
    pointer and the result is SQL NULL, not a text. *)
Theorem empty_cases_return_stale_text_or_null :
  sink (matched_columns_imp scenario3 stale_text 0) = ResultText "xy" /\
  sink (matched_columns_imp scenario4 zeroed 0) = ResultNull /\
  sink (matched_columns_imp scenario3 zeroed 0) = ResultText EmptyString.
Proof. vm_compute. repeat split. Qed.

(** C5 (code defect).  The claim asks that the output lists the indexes
    in first-seen order.  With 32 columns and one phrase that matches
    columns 3, 4, 5 and 31, on a zeroed heap, the first-seen order prints
    as "3,4,5,31" and the call returns "3,4,5,3": its entries are not
    the first-seen sequence, nor a part of it. *)
Theorem output_departs_from_first_seen_order :
  spec_first_seen_order thirty_two_columns = [3; 4; 5; 31] /\
  spec_output thirty_two_columns = "3,4,5,31"%string /\
  sink (matched_columns_imp thirty_two_columns zeroed 0) =
    ResultText "3,4,5,3" /\
  entries "3,4,5,3" = map decimal [3; 4; 5; 3].
Proof. vm_compute. repeat split. Qed.

(** C6.  A call with a nonzero argument count reports the error
    "Wrong number of arguments." and nothing else happens: no block is
    requested, no iterator is advanced, no text is produced. *)
Theorem arity_error_stops_before_aggregation
  (ftsContext : Fts5Context) (heap : Allocator) (nVal : Z) :
  nVal <> 0 ->
  sink (matched_columns_imp ftsContext heap nVal) =
    ResultError "Wrong number of arguments." /\
  fault (matched_columns_imp ftsContext heap nVal) = None /\
  allocations (memory (matched_columns_imp ftsContext heap nVal)) = 0%nat /\
  iterator_steps (memory (matched_columns_imp ftsContext heap nVal)) = 0%nat /\
  (forall text,
     sink (matched_columns_imp ftsContext heap nVal) <> ResultText text).
Proof.
  intros H. rewrite (wrong_arity ftsContext heap nVal H). simpl.
  repeat split. intros text. discriminate.
Qed.

Lemma arity_error_stops_before_aggregation_witness :
  2 <> 0 /\
  sink (matched_columns_imp scenario1 zeroed 2) =
    ResultError "Wrong number of arguments.".
Proof.
  split; [lia|].
  apply (arity_error_stops_before_aggregation scenario1 zeroed 2). lia.
Defined.

(** C7 (code defect).  The claim asks that a failed allocation is
    reported as an error.  Neither pointer is tested.  With 3 columns and
    one phrase that matches column 0: when the seen-set cannot be
    allocated the call reads [columnSet[0]] through a null pointer; when
    the output block cannot be allocated it calls [strlen] on a null
    pointer.  In both runs nothing reaches the result context.  When no
    phrase matches, the null output pointer is handed to
    [sqlite3_result_text] and the result is SQL NULL. *)
Theorem failed_allocation_is_dereferenced :
  fault (matched_columns_imp one_match no_seen_set 0) =
    Some (NullDereference SeenSet) /\
  sink (matched_columns_imp one_match no_seen_set 0) = NoResult /\
  fault (matched_columns_imp one_match no_output_buffer 0) =
    Some (NullDereference OutputText) /\
  sink (matched_columns_imp one_match no_output_buffer 0) = NoResult /\
  sink (matched_columns_imp scenario3 no_output_buffer 0) = ResultNull.
Proof. vm_compute. repeat split. Qed.

(** C8, the claim as stated fails.  With 2 columns and an iterator that
    delivers index 5, the call reads [columnSet[5]] outside the two-cell
    seen-set; no error reaches the result context. *)
Lemma stray_index_is_not_reported :
  ~ reports_error (matched_columns_imp stray_index zeroed 0) /\
  fault (matched_columns_imp stray_index zeroed 0) =
    Some (OutOfBounds SeenSet).
Proof.
  split; [|vm_compute; reflexivity].
  intros [message H]. vm_compute in H. discriminate.
Qed.

(** C8, amended.  The code does not compare a delivered index with the
    column count; it relies on the iterators.  When every delivered index
    is below the column count, no access falls outside the seen-set,
    whatever the heap holds; when in addition the fresh output block
    starts with a NUL, no access falls outside either buffer. *)
Theorem in_range_indexes_stay_in_bounds
  (ftsContext : Fts5Context) (heap : Allocator) (nVal : Z) :
  0 <= xColumnCount ftsContext ->
  3 * xColumnCount ftsContext <= int_max ->
  in_range ftsContext ->
  fault (matched_columns_imp ftsContext heap nVal)
    <> Some (OutOfBounds SeenSet) /\
  (output_starts_empty heap ->
   forall b, fault (matched_columns_imp ftsContext heap nVal)
               <> Some (OutOfBounds b)).
Proof.
  intros Hn Hmax Hrange.
  destruct (Z.eq_dec nVal 0) as [->|Harity].
  2: { rewrite (wrong_arity _ _ _ Harity). simpl.
       split; [|intros _ b]; discriminate. }
  split.
  - intros Hf.
    refine (run_faults
              (seen_set_sized (Z.to_nat (xColumnCount ftsContext)))
              (not_out_of_bounds SeenSet) ftsContext heap _ _ _ _ Hf eq_refl).
    + apply allocate_seen_set_sized. lia.
    + apply (phrase_loop_keeps _ _ (fun c => c < xColumnCount ftsContext)).
      * intros c Hc Hlt. apply visit_keeps_seen_set_sized; lia.
      * exact Hrange.
    + intros m _ _. discriminate.
  - intros Hempty b Hf.
    refine (run_faults
              (buffers_fit (Z.to_nat (xColumnCount ftsContext)))
              (fun f => forall b, not_out_of_bounds b f)
              ftsContext heap _ _ _ _ Hf b eq_refl).
    + now apply allocate_buffers_fit.
    + apply (phrase_loop_keeps _ _ (fun c => c < xColumnCount ftsContext)).
      * intros c Hc Hlt. apply visit_keeps_buffers_fit; lia.
      * exact Hrange.
    + intros m [_ Hfit] Htext. exfalso. unfold sqlite3_result_text in Htext.
      destruct (matchedColumns m) as [buf|]; [|discriminate].
      destruct (Hfit buf eq_refl) as (_ & l & Hl & _). rewrite Hl in Htext.
      discriminate.
Qed.

Lemma in_range_indexes_stay_in_bounds_witness :
  0 <= xColumnCount scenario1 /\
  3 * xColumnCount scenario1 <= int_max /\
  in_range scenario1 /\
  output_starts_empty zeroed /\
  forall b, fault (matched_columns_imp scenario1 zeroed 0)
              <> Some (OutOfBounds b).
Proof.
  assert (H0 : 0 <= xColumnCount scenario1) by (vm_compute; discriminate).
  assert (H1 : 3 * xColumnCount scenario1 <= int_max)
    by (vm_compute; discriminate).
  assert (H2 : in_range scenario1)
    by (repeat constructor).
  assert (H3 : output_starts_empty zeroed)
    by (intros content [= <-]; reflexivity).
  split; [exact H0|]. split; [exact H1|]. split; [exact H2|].
  split; [exact H3|].
  exact (proj2 (in_range_indexes_stay_in_bounds scenario1 zeroed 0 H0 H1 H2)
           H3).
Defined.

(** C9.  When every iterator delivers valid column indexes, each at most
    once, a call ends with an outcome, and the loop body has run at most
    numberOfColumns x numberOfPhrases times: once for each index an
    iterator delivered. *)
Theorem iterator_steps_bounded
  (ftsContext : Fts5Context) (heap : Allocator) (nVal : Z) :
  0 <= xColumnCount ftsContext ->
  finite_iterators ftsContext ->
  exists outcome,
    matched_columns_imp ftsContext heap nVal = outcome /\
    Z.of_nat (iterator_steps (memory outcome))
    <= xColumnCount ftsContext * xPhraseCount ftsContext.
Proof.
  intros Hn Hfinite. eexists. split; [reflexivity|].
  assert (Hcount : 0 <= xPhraseCount ftsContext)
    by (unfold xPhraseCount; lia).
  destruct (Z.eq_dec nVal 0) as [->|Harity].
  2: { rewrite (wrong_arity _ _ _ Harity). simpl. nia. }
  rewrite memory_of_run.
  assert (Hall : Forall (fun columns =>
                   (length columns
                    <= Z.to_nat (xColumnCount ftsContext))%nat)
                   (phraseColumns ftsContext)).
  { eapply List.Forall_impl; [|exact Hfinite]. intros columns [Hnd Hcols].
    now apply distinct_columns_bounded. }
  pose proof (phrase_loop_steps ftsContext _ Hall
                (length (phraseColumns ftsContext)) 0
                (allocate_buffers ftsContext heap)) as Hsteps.
  simpl in Hsteps. unfold xPhraseCount. nia.
Qed.

Lemma iterator_steps_bounded_witness :
  0 <= xColumnCount scenario1 /\
  finite_iterators scenario1 /\
  exists outcome,
    matched_columns_imp scenario1 zeroed 0 = outcome /\
    Z.of_nat (iterator_steps (memory outcome))
    <= xColumnCount scenario1 * xPhraseCount scenario1.
Proof.
  assert (H0 : 0 <= xColumnCount scenario1) by (vm_compute; discriminate).
  assert (H1 : finite_iterators scenario1).
  { unfold finite_iterators, scenario1. simpl.
    repeat (apply List.Forall_cons || apply List.Forall_nil || split);
      try lia.
    all: apply NoDup_ListNoDup; repeat constructor; simpl; lia. }
  split; [exact H0|]. split; [exact H1|].
  exact (iterator_steps_bounded scenario1 zeroed 0 H0 H1).
Defined.

(** C10, the claim as stated fails.  With 6 columns, one phrase that
    matches columns 0 to 3, and a fresh output block that starts with
    eight stale letters before its first NUL, the bound passed to
    [strncat] is 8 - 8 - 1, which wraps to the largest [size_t]: all of
    ",0,1,2,3" is appended, 8 bytes, without leaving the 18-byte block. *)
Lemma stale_text_lifts_the_bound :
  ~ (Z.of_nat
       (appended (memory (matched_columns_imp six_columns long_stale_text 0)))
     <= sizeof_pointer - 1) /\
  appended (memory (matched_columns_imp six_columns long_stale_text 0))
    = 8%nat /\
  fault (matched_columns_imp six_columns long_stale_text 0) = None /\
  sink (matched_columns_imp six_columns long_stale_text 0) =
    ResultText "AAAAAAAA,0,1,2,3".
Proof.
  split; [|vm_compute; repeat split].
  vm_compute. intros H. apply H. reflexivity.
Qed.

(** C10, amended.  The append step bounds the text with the size of the
    pointer, not of the block.  When the fresh output block holds a
    string of [l0] bytes with [l0] at most the pointer size minus one
    (the empty string for one), the bytes appended during the call number
    at most the pointer size minus one minus [l0], whatever the column
    and phrase counts; the text in the block never exceeds the pointer
    size minus one, 7 bytes. *)
Theorem appended_text_bounded_by_pointer_size
  (ftsContext : Fts5Context) (heap : Allocator) (nVal : Z)
  (buf : list ascii) (l0 : nat) :
  matchedColumns (allocate_buffers ftsContext heap) = Some buf ->
  strlen buf = Some l0 ->
  Z.of_nat l0 <= sizeof_pointer - 1 ->
  Z.of_nat (appended (memory (matched_columns_imp ftsContext heap nVal)))
  <= sizeof_pointer - 1 - Z.of_nat l0 /\
  forall text,
    sink (matched_columns_imp ftsContext heap nVal) = ResultText text ->
    nVal = 0 /\ Z.of_nat (String.length text) <= sizeof_pointer - 1.
Proof.
  intros Hbuf Hl0 Hle.
  destruct (Z.eq_dec nVal 0) as [->|Harity].
  2: { rewrite (wrong_arity _ _ _ Harity). simpl.
       split; [lia | discriminate]. }
  assert (Hstart : text_bounded l0 (allocate_buffers ftsContext heap)).
  { exists buf, l0. repeat split; auto. }
  pose proof (run_keeps_text_bounded ftsContext heap l0 Hstart)
    as (buf' & l & Hmc & Hl & Hbound & Happ).
  split; [lia|].
  intros text Htext. split; [reflexivity|].
  revert Htext Hmc. unfold matched_columns_imp. simpl.
  destruct (phrase_loop _ _ _ _) as [u m|f m]; simpl; [|discriminate].
  destruct (sqlite3_result_text (matchedColumns m)) eqn:Hres; simpl;
    [|discriminate].
  intros -> Hmc. unfold sqlite3_result_text in Hres.
  rewrite Hmc, Hl in Hres. inversion Hres as [Ht].
  rewrite string_of_list_ascii_length, length_take. lia.
Qed.

Lemma appended_text_bounded_by_pointer_size_witness :
  matchedColumns (allocate_buffers scenario6 zeroed) =
    Some (repeat NUL 450) /\
  strlen (repeat NUL 450) = Some 0%nat /\
  Z.of_nat 0 <= sizeof_pointer - 1 /\
  Z.of_nat (appended (memory (matched_columns_imp scenario6 zeroed 0)))
  <= sizeof_pointer - 1 - Z.of_nat 0.
Proof.
  assert (H0 : matchedColumns (allocate_buffers scenario6 zeroed) =
               Some (repeat NUL 450)) by (vm_compute; reflexivity).
  assert (H1 : strlen (repeat NUL 450) = Some 0%nat) by reflexivity.
  assert (H2 : Z.of_nat 0 <= sizeof_pointer - 1)
    by (vm_compute; discriminate).
  split; [exact H0|]. split; [exact H1|]. split; [exact H2|].
  exact (proj1 (appended_text_bounded_by_pointer_size
                  scenario6 zeroed 0 _ 0%nat H0 H1 H2)).
Defined.

(** * Further properties of [matched_columns_imp] *)

(** X1.  An error reaches the result context exactly when the argument
    count is not zero: whatever the match context and the heap, the
    aggregation itself never reports one. *)
Theorem error_iff_wrong_arity
  (ftsContext : Fts5Context) (heap : Allocator) (nVal : Z) :
  reports_error (matched_columns_imp ftsContext heap nVal) <-> nVal <> 0.
Proof.
  split.
  - intros Herr ->. exact (only_arity_errors_are_reported _ _ Herr).
  - intros Harity. rewrite (wrong_arity _ _ _ Harity). now eexists.
Qed.

(** ** Zero columns *)

Lemma visit_keeps_no_blocks (columnIndex : Z) :
  triple no_blocks (visit_column columnIndex) (fun _ => no_blocks)
    (fun f _ => f = NullDereference SeenSet).
Proof.
  intros m [Hmc Hcs]. run_visit. rewrite Hcs. reflexivity.
Qed.

(** X2.  With a column count of zero both requests are for zero bytes and
    both pointers are null: the call never returns a text.  It sets SQL
    NULL, or, when an iterator delivers an index all the same, reads
    [columnSet] through the null pointer. *)
Theorem zero_columns_never_give_text
  (ftsContext : Fts5Context) (heap : Allocator) :
  xColumnCount ftsContext = 0 ->
  (sink (matched_columns_imp ftsContext heap 0) = ResultNull /\
   fault (matched_columns_imp ftsContext heap 0) = None) \/
  (sink (matched_columns_imp ftsContext heap 0) = NoResult /\
   fault (matched_columns_imp ftsContext heap 0) =
     Some (NullDereference SeenSet)).
Proof.
  intros Hzero.
  assert (Hstart : no_blocks (allocate_buffers ftsContext heap)).
  { unfold no_blocks. simpl. rewrite Hzero. split; reflexivity. }
  pose proof (phrase_loop_keeps no_blocks
                (fun f _ => f = NullDereference SeenSet) (fun _ => True)
                (fun c _ _ => visit_keeps_no_blocks c) ftsContext
                (all_admissible _)
                (length (phraseColumns ftsContext)) 0 _ Hstart) as Hloop.
  unfold matched_columns_imp, xPhraseCount. simpl.
  rewrite Z.sub_0_r, Nat2Z.id.
  destruct (phrase_loop _ _ _ _) as [u m|f m]; simpl.
  - destruct Hloop as [-> _]. simpl. now left.
  - subst f. now right.
Qed.

Lemma zero_columns_never_give_text_witness :
  xColumnCount scenario4 = 0 /\
  ((sink (matched_columns_imp scenario4 stale_text 0) = ResultNull /\
    fault (matched_columns_imp scenario4 stale_text 0) = None) \/
   (sink (matched_columns_imp scenario4 stale_text 0) = NoResult /\
    fault (matched_columns_imp scenario4 stale_text 0) =
      Some (NullDereference SeenSet))).
Proof.
  assert (H0 : xColumnCount scenario4 = 0) by reflexivity.
  split; [exact H0|].
  exact (zero_columns_never_give_text scenario4 stale_text H0).
Defined.

(** ** The end marker *)

Lemma next_column_delivered (columns : list Z) (m : Memory) :
  (let (phraseIterator, columnIndex) := xPhraseNextColumn columns in
   column_loop phraseIterator columnIndex) m =
  (let (phraseIterator, columnIndex) :=
     xPhraseNextColumn (delivered columns) in
   column_loop phraseIterator columnIndex) m.
Proof.
  revert m. induction columns as [|c rest IH]; intros m; [reflexivity|].
  simpl. destruct (0 <=? c) eqn:Hsign.
  - simpl. rewrite !column_loop_next, Hsign. unfold bind.
    destruct (visit_column c m) as [u m'|f m']; [|reflexivity].
    apply IH.
  - rewrite column_loop_next, Hsign. reflexivity.
Qed.

Lemma phrase_loop_visible (ftsContext : Fts5Context) :
  forall remaining phraseIndex m,
    phrase_loop ftsContext remaining phraseIndex m =
    phrase_loop (visible ftsContext) remaining phraseIndex m.
Proof.
  induction remaining as [|k IH]; intros phraseIndex m; [reflexivity|].
  simpl. unfold bind, xPhraseFirstColumn. simpl.
  change (@nil Z) with (delivered []) at 2. rewrite map_nth.
  rewrite next_column_delivered.
  destruct ((let (phraseIterator, columnIndex) :=
               xPhraseNextColumn
                 (delivered (nth (Z.to_nat phraseIndex)
                               (phraseColumns ftsContext) [])) in
             column_loop phraseIterator columnIndex) m) as [u m'|f m'];
    [apply IH | reflexivity].
Qed.

(** X3.  A negative index ends the loop over a phrase: whatever an
    iterator would deliver after it is never looked at, so the outcome is
    that of the match context cut at these markers. *)
Theorem negative_index_ends_phrase
  (ftsContext : Fts5Context) (heap : Allocator) (nVal : Z) :
  matched_columns_imp ftsContext heap nVal =
  matched_columns_imp (visible ftsContext) heap nVal.
Proof.
  unfold matched_columns_imp, xPhraseCount.
  destruct (negb (nVal =? 0)); [reflexivity|].
  simpl. rewrite length_map, phrase_loop_visible. reflexivity.
Qed.

(** ** Nothing delivered *)

Lemma phrase_loop_idle (ftsContext : Fts5Context) :
  Forall (fun columns => delivered columns = []) (phraseColumns ftsContext) ->
  forall remaining phraseIndex m,
    phrase_loop ftsContext remaining phraseIndex m = Done tt m.
Proof.
  intros Hidle. induction remaining as [|k IH]; intros phraseIndex m;
    [reflexivity|].
  simpl. unfold bind, xPhraseFirstColumn.
  rewrite next_column_delivered.
  assert (Hnth : delivered (nth (Z.to_nat phraseIndex)
                              (phraseColumns ftsContext) []) = []).
  { destruct (Nat.lt_ge_cases (Z.to_nat phraseIndex)
                (length (phraseColumns ftsContext))) as [Hlt|Hge].
    - rewrite List.Forall_forall in Hidle. apply Hidle. now apply nth_In.
    - now rewrite nth_overflow by exact Hge. }
  rewrite Hnth. simpl. apply IH.
Qed.

(** X4.  When no iterator delivers a column (no phrases, or phrases
    that match nothing), neither block is written: the memory ends as
    allocated and the result is whatever string the fresh output block
    held, SQL NULL when there is no block. *)
Theorem nothing_delivered_returns_fresh_block
  (ftsContext : Fts5Context) (heap : Allocator) :
  Forall (fun columns => delivered columns = []) (phraseColumns ftsContext) ->
  memory (matched_columns_imp ftsContext heap 0) =
    allocate_buffers ftsContext heap /\
  match matchedColumns (allocate_buffers ftsContext heap) with
  | None => sink (matched_columns_imp ftsContext heap 0) = ResultNull
  | Some buf =>
      match strlen buf with
      | Some l =>
          sink (matched_columns_imp ftsContext heap 0) =
            ResultText (string_of_list_ascii (take l buf))
      | None =>
          fault (matched_columns_imp ftsContext heap 0) =
            Some (OutOfBounds OutputText)
      end
  end.
Proof.
  intros Hidle. unfold matched_columns_imp. simpl negb. cbv iota.
  rewrite (phrase_loop_idle ftsContext Hidle).
  unfold sqlite3_result_text.
  destruct (matchedColumns (allocate_buffers ftsContext heap)) as [buf|];
    [|split; reflexivity].
  destruct (strlen buf); split; reflexivity.
Qed.

Lemma nothing_delivered_returns_fresh_block_witness :
  Forall (fun columns => delivered columns = [])
    (phraseColumns nothing_matched) /\
  memory (matched_columns_imp nothing_matched stale_text 0) =
    allocate_buffers nothing_matched stale_text /\
  sink (matched_columns_imp nothing_matched stale_text 0) = ResultText "xy".
Proof.
  assert (H0 : Forall (fun columns => delivered columns = [])
                 (phraseColumns nothing_matched))
    by (repeat constructor).
  split; [exact H0|].
  exact (nothing_delivered_returns_fresh_block nothing_matched stale_text H0).
Defined.

(** ** The seen-set only grows *)

Lemma visit_keeps_seen_set_grown (cs0 : list bool) (touched : Z -> Prop)
  (columnIndex : Z) :
  0 <= columnIndex -> touched columnIndex ->
  triple (seen_set_grown cs0 touched) (visit_column columnIndex)
    (fun _ => seen_set_grown cs0 touched)
    (fun _ => seen_set_grown cs0 touched).
Proof.
  intros Hsign Htouched m (cs & Hcs & Hlen & Hcells).
  assert (Hsame : forall m', columnSet m' = Some cs ->
                             seen_set_grown cs0 touched m')
    by (intros m' Hm'; exists cs; auto).
  assert (Hmarked : forall m',
            (Z.to_nat columnIndex < length cs)%nat ->
            columnSet m' = Some (<[Z.to_nat columnIndex := true]> cs) ->
            seen_set_grown cs0 touched m').
  { intros m' Hin Hm'. exists (<[Z.to_nat columnIndex := true]> cs).
    split; [exact Hm'|]. split; [now rewrite length_insert|].
    intros i. destruct (Nat.eq_dec (Z.to_nat columnIndex) i) as [<-|Hne].
    - rewrite list_lookup_insert_eq by exact Hin.
      split; [reflexivity|]. intros _. split; [reflexivity|].
      now rewrite Z2Nat.id by lia.
    - rewrite list_lookup_insert_ne by exact Hne. apply Hcells. }
  run_visit. rewrite Hcs.
  split_matches; simplify_eq;
    try (apply Hsame; reflexivity);
    apply Hmarked; try reflexivity; now apply Nat.ltb_lt.
Qed.

Lemma all_touched (phrases : list (list Z)) :
  Forall (Forall (fun c => In c (concat phrases))) phrases.
Proof.
  apply List.Forall_forall. intros columns Hcolumns.
  apply List.Forall_forall. intros c Hc.
  apply in_concat. eauto.
Qed.

(** X5.  The seen-set keeps its size and only ever gains marks: a cell
    that is true stays true, and a cell that changed during the call
    became true and belongs to a column index some iterator delivered. *)
Theorem seen_set_only_grows
  (ftsContext : Fts5Context) (heap : Allocator) (cs0 : list bool) :
  columnSet (allocate_buffers ftsContext heap) = Some cs0 ->
  exists cs1,
    columnSet (memory (matched_columns_imp ftsContext heap 0)) = Some cs1 /\
    length cs1 = length cs0 /\
    forall i,
      (cs0 !! i = Some true -> cs1 !! i = Some true) /\
      (cs1 !! i <> cs0 !! i ->
       cs1 !! i = Some true /\
       In (Z.of_nat i) (concat (phraseColumns ftsContext))).
Proof.
  intros Hstart. rewrite memory_of_run.
  pose proof (phrase_loop_keeps _ _ _
                (visit_keeps_seen_set_grown cs0
                   (fun c => In c (concat (phraseColumns ftsContext))))
                ftsContext (all_touched _)
                (length (phraseColumns ftsContext)) 0
                (allocate_buffers ftsContext heap)) as Hloop.
  assert (Hinit : seen_set_grown cs0
            (fun c => In c (concat (phraseColumns ftsContext)))
            (allocate_buffers ftsContext heap)).
  { exists cs0. split; [exact Hstart|]. split; [reflexivity|].
    intros i. split; [auto|]. intros Hne. now contradiction Hne. }
  specialize (Hloop Hinit).
  destruct (phrase_loop _ _ _ _); exact Hloop.
Qed.

Lemma seen_set_only_grows_witness :
  columnSet (allocate_buffers scenario1 stale_seen) =
    Some [true; false; false] /\
  exists cs1,
    columnSet (memory (matched_columns_imp scenario1 stale_seen 0))
      = Some cs1 /\
    length cs1 = length [true; false; false] /\
    forall i,
      ([true; false; false] !! i = Some true -> cs1 !! i = Some true) /\
      (cs1 !! i <> [true; false; false] !! i ->
       cs1 !! i = Some true /\
       In (Z.of_nat i) (concat (phraseColumns scenario1))).
Proof.
  assert (H0 : columnSet (allocate_buffers scenario1 stale_seen) =
               Some [true; false; false]) by reflexivity.
  split; [exact H0|].
  exact (seen_set_only_grows scenario1 stale_seen _ H0).
Defined.

(** ** Stale marks in the seen-set *)

Lemma stale_column_mark (content : nat -> bool) (n i : nat) :
  (i < n)%nat ->
  existsb (Z.eqb (Z.of_nat i))
    (map Z.of_nat (List.filter content (seq 0 n))) = content i.
Proof.
  intros Hi. destruct (content i) eqn:Hcell.
  - apply existsb_exists. exists (Z.of_nat i). split; [|apply Z.eqb_refl].
    apply List.in_map, List.filter_In. split; [|exact Hcell].
    apply List.in_seq. lia.
  - destruct (existsb _ _) eqn:Hex; [|reflexivity].
    apply existsb_exists in Hex as (x & Hx & Heq).
    apply Z.eqb_eq in Heq. subst x.
    apply List.in_map_iff in Hx as (j & Hj & Hin).
    apply Nat2Z.inj in Hj. subst j.
    apply List.filter_In in Hin as [_ Hin]. congruence.
Qed.

Lemma allocate_marked_state (ftsContext : Fts5Context) (heap : Allocator) :
  0 < xColumnCount ftsContext ->
  3 * xColumnCount ftsContext <= int_max ->
  blocks_granted heap ->
  output_starts_empty heap ->
  clean_state (Z.to_nat (xColumnCount ftsContext))
    (stale_columns heap (Z.to_nat (xColumnCount ftsContext))) []
    (allocate_buffers ftsContext heap).
Proof.
  intros Hn Hmax [[out_content Hout] [seen_content Hseen]] Hempty.
  destruct (allocate_buffers_fit ftsContext heap ltac:(lia) Hmax Hempty)
    as [Hsized Hfit].
  assert (Hrequest : sqlite3_malloc (output_block heap)
                       (3 * xColumnCount ftsContext) =
                     Some (map out_content
                             (seq 0 (Z.to_nat (3 * xColumnCount ftsContext))))).
  { unfold sqlite3_malloc.
    replace (3 * xColumnCount ftsContext <=? 0) with false
      by (symmetry; apply Z.leb_gt; lia).
    now rewrite Hout. }
  assert (Hbuf : matchedColumns (allocate_buffers ftsContext heap) =
                 Some (map out_content
                         (seq 0 (Z.to_nat (3 * xColumnCount ftsContext))))).
  { simpl. now rewrite output_request by lia. }
  assert (Hcs : columnSet (allocate_buffers ftsContext heap) =
                Some (map seen_content
                        (seq 0 (Z.to_nat (xColumnCount ftsContext))))).
  { simpl. rewrite seen_set_request by (unfold int_max in *; lia).
    unfold sqlite3_malloc.
    replace (xColumnCount ftsContext <=? 0) with false
      by (symmetry; apply Z.leb_gt; lia).
    now rewrite Hseen. }
  destruct (Hfit _ Hbuf) as (Hlen & l & Hl & _ & Hroom).
  assert (Hzero : l = 0%nat).
  { revert Hl.
    destruct (Z.to_nat (3 * xColumnCount ftsContext)) as [|k] eqn:Hk; [lia|].
    simpl. unfold strlen. rewrite (Hempty out_content Hout). simpl.
    congruence. }
  subst l.
  eexists _, _, 0%nat.
  split; [exact Hbuf|]. split; [exact Hcs|]. split; [exact Hlen|].
  split; [now rewrite length_map, length_seq|].
  split; [|split; [exact Hl|split; [reflexivity|]]].
  - intros i Hi. rewrite fresh_block_lookup by exact Hi.
    unfold stale_columns. rewrite Hseen.
    now rewrite stale_column_mark by exact Hi.
  - destruct Hroom as [Hbig|Hsmall]; [now left|right]. now apply Hsmall.
Qed.

(** The outcome on a heap that grants both blocks, the output block
    starting with a NUL. *)
Lemma marked_heap_output
  (ftsContext : Fts5Context) (heap : Allocator) :
  0 < xColumnCount ftsContext ->
  3 * xColumnCount ftsContext <= int_max ->
  valid_columns ftsContext ->
  blocks_granted heap ->
  output_starts_empty heap ->
  sink (matched_columns_imp ftsContext heap 0) =
    ResultText
      (cut (join_commas
              (map decimal
                 (keep_first
                    (stale_columns heap
                       (Z.to_nat (xColumnCount ftsContext)))
                    (concat (phraseColumns ftsContext)))))) /\
  fault (matched_columns_imp ftsContext heap 0) = None.
Proof.
  intros Hn Hmax Hvalid Hgranted Hempty.
  assert (Hall : Forall (Forall (fun c =>
                   0 <= c < Z.of_nat (Z.to_nat (xColumnCount ftsContext))))
                   (phraseColumns ftsContext)).
  { eapply List.Forall_impl; [|exact Hvalid]. intros columns Hcols.
    eapply List.Forall_impl; [|exact Hcols]. intros c Hc. simpl in Hc. lia. }
  pose proof (phrase_loop_clean _ ftsContext Hall
                (length (phraseColumns ftsContext)) 0 _ [] (Z.le_refl 0)
                _ (allocate_marked_state ftsContext heap Hn Hmax
                     Hgranted Hempty))
    as Hloop.
  simpl in Hloop. rewrite drop_0, take_ge in Hloop by lia.
  unfold matched_columns_imp, xPhraseCount. simpl.
  rewrite Z.sub_0_r, Nat2Z.id.
  destruct (phrase_loop _ _ _ _) as [u m|f m]; [|contradiction].
  destruct Hloop as (buf & cs & l & Hmc & _ & _ & _ & _ & Hl & Htext & _).
  unfold sqlite3_result_text. rewrite Hmc, Hl. simpl.
  split; [|reflexivity]. unfold cut. now rewrite Htext.
Qed.

(** X6.  When both blocks are granted, the output block starts with a
    NUL, the delivered indexes are valid and every cell of the fresh
    seen-set block holds the byte 0 or 1: the call ends without a fault
    and returns the list, in first-seen order, of the delivered columns
    whose cell did not hold 1 already, cut to the size of a pointer minus
    one.  A stale 1 acts as a column seen before the first phrase. *)
Theorem stale_marks_act_as_seen_columns
  (ftsContext : Fts5Context) (heap : Allocator) (bytes : nat -> Z) :
  0 < xColumnCount ftsContext ->
  3 * xColumnCount ftsContext <= int_max ->
  valid_columns ftsContext ->
  (exists content, output_block heap = Some content /\
                   content 0%nat = NUL) ->
  bool_bytes bytes ->
  seen_block heap = Some (cells_of_bytes bytes) ->
  sink (matched_columns_imp ftsContext heap 0) =
    ResultText
      (cut (join_commas
              (map decimal
                 (keep_first
                    (marked_by bytes (Z.to_nat (xColumnCount ftsContext)))
                    (concat (phraseColumns ftsContext)))))) /\
  fault (matched_columns_imp ftsContext heap 0) = None.
Proof.
  intros Hn Hmax Hvalid (content & Hout & Hnul) Hbytes Hseen.
  assert (Hgranted : blocks_granted heap) by (split; eauto).
  assert (Hempty : output_starts_empty heap).
  { intros content' Hc. rewrite Hout in Hc. now inversion Hc; subst. }
  assert (Hmarks : stale_columns heap (Z.to_nat (xColumnCount ftsContext)) =
                   marked_by bytes (Z.to_nat (xColumnCount ftsContext))).
  { unfold stale_columns, marked_by. rewrite Hseen. f_equal.
    apply List.filter_ext. intros i. unfold cells_of_bytes.
    destruct (Hbytes i) as [-> | ->]; reflexivity. }
  rewrite <- Hmarks.
  exact (marked_heap_output ftsContext heap Hn Hmax Hvalid Hgranted Hempty).
Qed.

Lemma stale_marks_act_as_seen_columns_witness :
  0 < xColumnCount scenario1 /\
  3 * xColumnCount scenario1 <= int_max /\
  valid_columns scenario1 /\
  (exists content, output_block stale_first_byte = Some content /\
                   content 0%nat = NUL) /\
  bool_bytes (block_of [1] 0) /\
  seen_block stale_first_byte = Some (cells_of_bytes (block_of [1] 0)) /\
  sink (matched_columns_imp scenario1 stale_first_byte 0) = ResultText "1,2".
Proof.
  assert (H0 : 0 < xColumnCount scenario1) by reflexivity.
  assert (H1 : 3 * xColumnCount scenario1 <= int_max) by discriminate.
  assert (H2 : valid_columns scenario1).
  { unfold valid_columns, scenario1. simpl.
    repeat (apply List.Forall_cons || apply List.Forall_nil); lia. }
  assert (H3 : exists content,
             output_block stale_first_byte = Some content /\
             content 0%nat = NUL)
    by (eexists; split; reflexivity).
  assert (H4 : bool_bytes (block_of [1] 0)).
  { intros [|[|[|i]]]; unfold block_of; simpl; auto. }
  assert (H5 : seen_block stale_first_byte =
               Some (cells_of_bytes (block_of [1] 0))) by reflexivity.
  split; [exact H0|]. split; [exact H1|]. split; [exact H2|].
  split; [exact H3|]. split; [exact H4|]. split; [exact H5|].
  exact (proj1 (stale_marks_act_as_seen_columns scenario1 stale_first_byte
                  (block_of [1] 0) H0 H1 H2 H3 H4 H5)).
Defined.

(** ** Reading a returned list back *)

Lemma digits_no_comma (d : Decimal.uint) :
  Forall (fun c => c <> ","%char)
    (list_ascii_of_string (NilEmpty.string_of_uint d)).
Proof.
  induction d; simpl; constructor; try discriminate; assumption.
Qed.

Lemma decimal_plain (c : Z) : plain_entry (decimal c).
Proof.
  split; [apply decimal_nonempty|].
  unfold decimal, NilZero.string_of_int, NilZero.string_of_uint.
  destruct (Z.to_int c) as [d|d]; destruct d; simpl;
    repeat (constructor; try discriminate);
    apply digits_no_comma.
Qed.

Lemma split_commas_plain (e : string) :
  Forall (fun c => c <> ","%char) (list_ascii_of_string e) ->
  split_commas e = [e].
Proof.
  induction e as [|c e IH]; intros Hplain; [reflexivity|].
  simpl in *. inversion Hplain as [|? ? Hc He]; subst.
  apply Ascii.eqb_neq in Hc. rewrite Hc, (IH He). reflexivity.
Qed.

Lemma split_commas_app (e rest : string) :
  Forall (fun c => c <> ","%char) (list_ascii_of_string e) ->
  split_commas (e ++ String "," rest) = e :: split_commas rest.
Proof.
  induction e as [|c e IH]; intros Hplain; [reflexivity|].
  simpl in *. inversion Hplain as [|? ? Hc He]; subst.
  apply Ascii.eqb_neq in Hc. rewrite Hc, (IH He). reflexivity.
Qed.

Lemma split_join_commas (items : list string) :
  Forall plain_entry items -> items <> [] ->
  split_commas (join_commas items) = items.
Proof.
  induction items as [|e items IH]; intros Hplain Hne; [congruence|].
  inversion Hplain as [|? ? [_ He] Hrest]; subst.
  destruct items as [|e2 items].
  - simpl. now apply split_commas_plain.
  - change (join_commas (e :: e2 :: items))
      with (e ++ String "," (join_commas (e2 :: items)))%string.
    rewrite split_commas_app by exact He.
    rewrite IH; [reflexivity | exact Hrest | discriminate].
Qed.

(** Splitting a joined list of plain entries gives the entries back. *)
Lemma entries_join_commas (items : list string) :
  Forall plain_entry items -> entries (join_commas items) = items.
Proof.
  intros Hplain. destruct items as [|e items]; [reflexivity|].
  assert (Hne : join_commas (e :: items) <> EmptyString).
  { apply join_commas_nonempty; [|discriminate].
    eapply List.Forall_impl; [|exact Hplain]. now intros ? [? _]. }
  unfold entries. destruct (join_commas (e :: items)) eqn:Hjoin;
    [congruence|].
  rewrite <- Hjoin. apply split_join_commas; [exact Hplain | discriminate].
Qed.

Lemma existsb_eqb_In (c : Z) (seen : list Z) :
  existsb (Z.eqb c) seen = true <-> In c seen.
Proof.
  rewrite existsb_exists. split.
  - intros (x & Hx & Heq). apply Z.eqb_eq in Heq. now subst.
  - intros Hin. exists c. split; [exact Hin | apply Z.eqb_refl].
Qed.

(** [keep_first] lists exactly the columns not seen before, each once. *)
Lemma keep_first_In (columns : list Z) :
  forall seen c,
    In c (keep_first seen columns) <-> In c columns /\ ~ In c seen.
Proof.
  induction columns as [|x columns IH]; intros seen c; simpl; [tauto|].
  destruct (existsb (Z.eqb x) seen) eqn:Hseen.
  - apply existsb_eqb_In in Hseen. rewrite IH.
    split; [tauto|]. intros [[->|Hin] Hnot]; tauto.
  - assert (Hnot : ~ In x seen).
    { intros Hin. apply existsb_eqb_In in Hin. congruence. }
    simpl. rewrite IH. simpl.
    destruct (Z.eq_dec x c) as [->|Hne]; tauto.
Qed.

Lemma keep_first_NoDup (columns : list Z) :
  forall seen, List.NoDup (keep_first seen columns).
Proof.
  induction columns as [|x columns IH]; intros seen; simpl;
    [constructor|].
  destruct (existsb (Z.eqb x) seen); [apply IH|].
  constructor; [|apply IH].
  rewrite keep_first_In. simpl. tauto.
Qed.

(** X7.  On a clean heap, for a match context with valid column indexes
    whose first-seen list fits the pointer-sized bound, the returned text
    reads back as the delivered columns: every column some iterator
    delivered is an entry, none twice, in first-seen order. *)
Theorem fitting_list_reads_back
  (ftsContext : Fts5Context) (heap : Allocator) :
  0 < xColumnCount ftsContext ->
  3 * xColumnCount ftsContext <= int_max ->
  valid_columns ftsContext ->
  clean_heap heap ->
  Z.of_nat (String.length (spec_output ftsContext)) <= sizeof_pointer - 1 ->
  exists text columns,
    sink (matched_columns_imp ftsContext heap 0) = ResultText text /\
    entries text = map decimal columns /\
    columns = spec_first_seen_order ftsContext /\
    List.NoDup columns /\
    forall c, In c columns <-> In c (concat (phraseColumns ftsContext)).
Proof.
  intros Hn Hmax Hvalid Hclean Hshort.
  exists (spec_output ftsContext), (spec_first_seen_order ftsContext).
  split; [now apply short_lists_are_complete|].
  split.
  { apply entries_join_commas, List.Forall_forall. intros e He.
    apply List.in_map_iff in He as (c & <- & _). apply decimal_plain. }
  split; [reflexivity|]. split; [apply keep_first_NoDup|].
  intros c. unfold spec_first_seen_order. rewrite keep_first_In.
  simpl. tauto.
Qed.

Lemma fitting_list_reads_back_witness :
  0 < xColumnCount repeated_phrase /\
  3 * xColumnCount repeated_phrase <= int_max /\
  valid_columns repeated_phrase /\
  clean_heap zeroed /\
  Z.of_nat (String.length (spec_output repeated_phrase))
    <= sizeof_pointer - 1 /\
  exists text columns,
    sink (matched_columns_imp repeated_phrase zeroed 0) = ResultText text /\
    entries text = map decimal columns /\
    columns = spec_first_seen_order repeated_phrase /\
    List.NoDup columns /\
    forall c, In c columns <-> In c (concat (phraseColumns repeated_phrase)).
Proof.
  assert (H0 : 0 < xColumnCount repeated_phrase) by reflexivity.
  assert (H1 : 3 * xColumnCount repeated_phrase <= int_max) by discriminate.
  assert (H2 : valid_columns repeated_phrase).
  { unfold valid_columns, repeated_phrase. simpl.
    repeat (apply List.Forall_cons || apply List.Forall_nil); lia. }
  assert (H3 : clean_heap zeroed) by exact zeroed_is_clean.
  assert (H4 : Z.of_nat (String.length (spec_output repeated_phrase))
               <= sizeof_pointer - 1) by discriminate.
  split; [exact H0|]. split; [exact H1|]. split; [exact H2|].
  split; [exact H3|]. split; [exact H4|].
  exact (fitting_list_reads_back repeated_phrase zeroed H0 H1 H2 H3 H4).
Defined.

(** ** A phrase that matches nothing new *)

Lemma mark_all_In (columns : list Z) :
  forall seen c, In c (mark_all seen columns) <-> In c seen \/ In c columns.
Proof.
  unfold mark_all.
  induction columns as [|x columns IH]; intros seen c; simpl; [tauto|].
  rewrite IH. unfold mark.
  destruct (existsb (Z.eqb x) seen) eqn:Hseen; simpl.
  - apply existsb_eqb_In in Hseen. split; [tauto|].
    intros [Hin|[->|Hin]]; tauto.
  - tauto.
Qed.

Lemma keep_first_nothing_new (seen columns : list Z) :
  Forall (fun c => In c seen) columns -> keep_first seen columns = [].
Proof.
  intros Hall. destruct (keep_first seen columns) as [|x rest] eqn:Hkeep;
    [reflexivity|].
  assert (Hx : In x (keep_first seen columns))
    by (rewrite Hkeep; now left).
  apply keep_first_In in Hx as [Hin Hnot].
  rewrite List.Forall_forall in Hall. now apply Hall in Hin.
Qed.

Lemma first_seen_with_known_phrase (seen : list Z)
  (phrases : list (list Z)) (columns : list Z) :
  Forall (fun c => In c (concat phrases)) columns ->
  keep_first seen (concat (phrases ++ [columns])) =
  keep_first seen (concat phrases).
Proof.
  intros Hknown. rewrite concat_app. simpl (concat [columns]).
  rewrite app_nil_r, keep_first_app.
  rewrite (keep_first_nothing_new _ columns); [apply app_nil_r|].
  eapply List.Forall_impl; [|exact Hknown].
  intros c Hc. apply mark_all_In. now right.
Qed.

(** X8.  A further phrase that matches only columns matched by the
    phrases before it leaves the result as it was, whatever the fresh
    seen-set block holds (both blocks granted, the output block starting
    with a NUL). *)
Theorem phrase_without_new_columns_changes_nothing
  (ftsContext : Fts5Context) (heap : Allocator) (columns : list Z) :
  0 < xColumnCount ftsContext ->
  3 * xColumnCount ftsContext <= int_max ->
  valid_columns ftsContext ->
  blocks_granted heap ->
  output_starts_empty heap ->
  Forall (fun c => In c (concat (phraseColumns ftsContext))) columns ->
  sink (matched_columns_imp (with_phrase ftsContext columns) heap 0) =
  sink (matched_columns_imp ftsContext heap 0).
Proof.
  intros Hn Hmax Hvalid Hgranted Hempty Hknown.
  assert (Hvalid' : valid_columns (with_phrase ftsContext columns)).
  { unfold valid_columns, with_phrase. simpl. apply Forall_app. split;
      [exact Hvalid|]. constructor; [|constructor].
    apply List.Forall_forall. intros c Hc.
    rewrite List.Forall_forall in Hknown. apply Hknown in Hc.
    apply in_concat in Hc as (p & Hp & Hc).
    unfold valid_columns in Hvalid. rewrite List.Forall_forall in Hvalid.
    specialize (Hvalid p Hp). rewrite List.Forall_forall in Hvalid.
    now apply Hvalid. }
  destruct (marked_heap_output ftsContext heap Hn Hmax Hvalid
              Hgranted Hempty) as [-> _].
  destruct (marked_heap_output (with_phrase ftsContext columns) heap
              Hn Hmax Hvalid' Hgranted Hempty) as [-> _].
  simpl. now rewrite first_seen_with_known_phrase.
Qed.

Lemma phrase_without_new_columns_changes_nothing_witness :
  0 < xColumnCount scenario1 /\
  3 * xColumnCount scenario1 <= int_max /\
  valid_columns scenario1 /\
  blocks_granted stale_seen /\
  output_starts_empty stale_seen /\
  Forall (fun c => In c (concat (phraseColumns scenario1))) [2; 0; 1] /\
  sink (matched_columns_imp (with_phrase scenario1 [2; 0; 1]) stale_seen 0) =
  sink (matched_columns_imp scenario1 stale_seen 0).
Proof.
  assert (H0 : 0 < xColumnCount scenario1) by reflexivity.
  assert (H1 : 3 * xColumnCount scenario1 <= int_max) by discriminate.
  assert (H2 : valid_columns scenario1).
  { unfold valid_columns, scenario1. simpl.
    repeat (apply List.Forall_cons || apply List.Forall_nil); lia. }
  assert (H3 : blocks_granted stale_seen)
    by (split; eexists; reflexivity).
  assert (H4 : output_starts_empty stale_seen)
    by (intros content [= <-]; reflexivity).
  assert (H5 : Forall (fun c => In c (concat (phraseColumns scenario1)))
                 [2; 0; 1]).
  { repeat (apply List.Forall_cons || apply List.Forall_nil); simpl; lia. }
  split; [exact H0|]. split; [exact H1|]. split; [exact H2|].
  split; [exact H3|]. split; [exact H4|]. split; [exact H5|].
  exact (phrase_without_new_columns_changes_nothing scenario1 stale_seen
           [2; 0; 1] H0 H1 H2 H3 H4 H5).
Defined.

(** ** The number of loop iterations of a run without a fault *)

Lemma column_loop_steps_exact (phraseIterator : Fts5PhraseIter) :
  forall columnIndex m u m',
    Forall (fun c => 0 <= c) (columnIndex :: phraseIterator) ->
    column_loop phraseIterator columnIndex m = Done u m' ->
    iterator_steps m' =
    (iterator_steps m + length (columnIndex :: phraseIterator))%nat.
Proof.
  induction phraseIterator as [|c rest IH];
    intros columnIndex m u m' Hall Hrun;
    inversion Hall as [|? ? Hsign Hrest]; subst;
    simpl in Hrun;
    (replace (0 <=? columnIndex) with true in Hrun
       by (symmetry; apply Z.leb_le; lia));
    unfold bind in Hrun;
    pose proof (visit_column_steps columnIndex m) as Hvisit;
    destruct (visit_column columnIndex m) as [u0 m0|f m0];
    try discriminate; simpl in Hvisit.
  - inversion Hrun; subst. simpl. lia.
  - apply IH in Hrun; [|exact Hrest]. simpl in *. lia.
Qed.

Lemma phrase_loop_steps_exact (ftsContext : Fts5Context) :
  Forall (Forall (fun c => 0 <= c)) (phraseColumns ftsContext) ->
  forall remaining phraseIndex m u m',
    0 <= phraseIndex ->
    phrase_loop ftsContext remaining phraseIndex m = Done u m' ->
    iterator_steps m' =
    (iterator_steps m +
     length (concat (take remaining
                       (drop (Z.to_nat phraseIndex)
                          (phraseColumns ftsContext)))))%nat.
Proof.
  intros Hall. induction remaining as [|k IH];
    intros phraseIndex m u m' Hpos Hrun.
  - inversion Hrun; subst. simpl. lia.
  - rewrite concat_next_phrase, length_app.
    replace (S (Z.to_nat phraseIndex))
      with (Z.to_nat (phraseIndex + 1)) by lia.
    simpl in Hrun. unfold bind, xPhraseFirstColumn, xPhraseNextColumn in Hrun.
    assert (Hcols : Forall (fun c => 0 <= c)
                      (nth (Z.to_nat phraseIndex)
                         (phraseColumns ftsContext) [])).
    { destruct (Nat.lt_ge_cases (Z.to_nat phraseIndex)
                  (length (phraseColumns ftsContext))) as [Hlt|Hge].
      - rewrite List.Forall_forall in Hall. apply Hall. now apply nth_In.
      - rewrite nth_overflow by exact Hge. constructor. }
    destruct (nth (Z.to_nat phraseIndex) (phraseColumns ftsContext) [])
      as [|c rest].
    + simpl in Hrun. apply IH in Hrun; [|lia]. simpl. exact Hrun.
    + destruct (column_loop rest c m) as [u0 m0|f m0] eqn:Hcolumn;
        [|discriminate].
      apply column_loop_steps_exact in Hcolumn; [|exact Hcols].
      apply IH in Hrun; [|lia]. lia.
Qed.

(** X9.  When every delivered index is non-negative and the call ends
    without a fault, the loop body has run once for each index the
    iterators delivered, repeated columns included: skipping a column
    that is already listed still costs its iteration. *)
Theorem every_delivered_index_is_visited
  (ftsContext : Fts5Context) (heap : Allocator) :
  Forall (Forall (fun c => 0 <= c)) (phraseColumns ftsContext) ->
  fault (matched_columns_imp ftsContext heap 0) = None ->
  iterator_steps (memory (matched_columns_imp ftsContext heap 0)) =
  length (concat (phraseColumns ftsContext)).
Proof.
  intros Hall. rewrite memory_of_run.
  unfold matched_columns_imp, xPhraseCount. simpl.
  rewrite Z.sub_0_r, Nat2Z.id.
  destruct (phrase_loop _ _ _ _) as [u m|f m] eqn:Hrun; simpl;
    [|discriminate].
  intros _.
  apply (phrase_loop_steps_exact ftsContext Hall) in Hrun; [|lia].
  simpl in Hrun. now rewrite drop_0, take_ge in Hrun by lia.
Qed.

Lemma every_delivered_index_is_visited_witness :
  Forall (Forall (fun c => 0 <= c)) (phraseColumns repeated_phrase) /\
  fault (matched_columns_imp repeated_phrase zeroed 0) = None /\
  iterator_steps (memory (matched_columns_imp repeated_phrase zeroed 0)) =
  length (concat (phraseColumns repeated_phrase)).
Proof.
  assert (H0 : Forall (Forall (fun c => 0 <= c))
                 (phraseColumns repeated_phrase)).
  { unfold repeated_phrase. simpl.
    repeat (apply List.Forall_cons || apply List.Forall_nil); lia. }
  assert (H1 : fault (matched_columns_imp repeated_phrase zeroed 0) = None)
    by reflexivity.
  split; [exact H0|]. split; [exact H1|].
  exact (every_delivered_index_is_visited repeated_phrase zeroed H0 H1).
Defined.

(** * Registration *)

Lemma api_from_db_cases (db : sqlite3) :
  (fts5_available db /\
   exists api,
     stepped_statement_stores db "SELECT fts5(?1)" "fts5_api_ptr" = Some api /\
     fts5_api_from_db db =
       ([CallPrepare "SELECT fts5(?1)"; CallBindPointer 1 "fts5_api_ptr";
         CallStep; CallFinalize (snd (sqlite3_prepare db "SELECT fts5(?1)"))],
        Some api)) \/
  (~ fts5_available db /\
   snd (fts5_api_from_db db) = None /\
   (fst (fts5_api_from_db db) =
      [CallPrepare "SELECT fts5(?1)"; CallBindPointer 1 "fts5_api_ptr";
       CallStep; CallFinalize (snd (sqlite3_prepare db "SELECT fts5(?1)"))] \/
    fst (fts5_api_from_db db) =
      [CallPrepare "SELECT fts5(?1)";
       CallFinalize (snd (sqlite3_prepare db "SELECT fts5(?1)"))])).
Proof.
  unfold fts5_available, fts5_api_from_db.
  destruct (sqlite3_prepare db "SELECT fts5(?1)") as [rc pStmt].
  cbn [fst snd].
  destruct (SQLITE_OK =? rc) eqn:Hrc.
  - apply Z.eqb_eq in Hrc.
    destruct (stepped_statement_stores db "SELECT fts5(?1)" "fts5_api_ptr")
      as [api|] eqn:Hstore.
    + left. split; [split; [congruence | discriminate]|].
      exists api. split; reflexivity.
    + right. split; [intros [_ H]; congruence|]. simpl. auto.
  - apply Z.eqb_neq in Hrc. right.
    split; [intros [H _]; congruence|]. simpl. auto.
Qed.

(** X10.  Registration reaches [xCreateFunction] exactly when the
    statement [SELECT fts5(?1)] could be prepared and, once stepped, left
    an [fts5_api] pointer behind; in every other case it returns -1. *)
Theorem registration_needs_the_fts5_api (db : sqlite3) :
  (existsb is_create_function (fst (fts5_register_matched_columns db)) = true
   <-> fts5_available db) /\
  (~ fts5_available db -> snd (fts5_register_matched_columns db) = -1).
Proof.
  unfold fts5_register_matched_columns.
  destruct (api_from_db_cases db)
    as [(Havail & api & _ & ->) | (Hnot & Hnone & Hcalls)].
  - simpl. split; [tauto|]. intros Hnot. contradiction.
  - destruct (fts5_api_from_db db) as [calls result]. simpl in *. subst.
    split; [|reflexivity].
    destruct Hcalls as [-> | ->]; simpl; split;
      (discriminate || contradiction).
Qed.

Lemma registration_needs_the_fts5_api_witness :
  ~ fts5_available no_fts5 /\
  snd (fts5_register_matched_columns no_fts5) = -1.
Proof.
  assert (H0 : ~ fts5_available no_fts5)
    by (intros [H _]; discriminate).
  split; [exact H0|].
  exact (proj2 (registration_needs_the_fts5_api no_fts5) H0).
Defined.


